(** * windows-network-interface-monitor: the monitor's state machine

    A shallow embedding of [NetworkInterfaceMonitor] (the class exported by
    the library): address resolution ([getIP], [isLinkLocalAddress]), change
    classification ([detectIPChange]), the retry timer ([onCheckTimer]) and
    the subscription life cycle ([start], [stop], [cancelNotification]).

    JavaScript objects used as maps are [gmap string _]; the family tags are
    the strings the code compares with [===].  The Node runtime and the
    Windows API are a [Host] record: what [os.networkInterfaces()] returns,
    what the two native calls answer, the pending timeouts of the event loop
    and the log of observable effects.  The methods are modelled as what
    they do when they return; the one exception they raise, the TypeError
    of [getIP] for an interface name that the runtime's answer only inherits
    from [Object.prototype], is [getIP_run], [start_run] and
    [detectIPChange_run]. *)

From Stdlib Require Import ZArith String Ascii List Lia DecimalString HexadecimalString.
From stdpp Require Import base option strings list gmap fin_maps.

Local Open Scope Z_scope.
Local Open Scope string_scope.

(** ** Constants of the module *)

(** [EventType]: the values a client checks for in its callback. *)
Inductive EventType := Initial | IPChanged | IPAssigned | IPRemoved.

Definition EventType_value (e : EventType) : Z :=
  match e with
  | Initial => 0
  | IPChanged => 1
  | IPAssigned => 2
  | IPRemoved => 3
  end.

#[global] Instance EventType_eq_dec : EqDecision EventType.
Proof. solve_decision. Defined.

(** [AddressFamilyApiValue]: ADDRESS_FAMILY of NotifyIpInterfaceChange. *)
Definition AddressFamilyApiValue : gmap string Z :=
  <["Any" := 0]> (<["IPv4" := 2]> (<["IPv6" := 23]> ∅)).

Definition DefaultCheckTimerInterval : Z := 500.
Definition DefaultCheckTimerMaxTries : Z := 20.

(** ** Address resolution *)

(** One element of an array of [os.networkInterfaces()]; only the two
    properties the monitor reads.  The runtime reports ["IPv4"] or ["IPv6"]
    as [family]; the code compares the tag as a string. *)
Record NetworkInterfaceInfo := {
  address : string;
  family : string;
}.

(** [String.prototype.startsWith]. *)
Definition startsWith (s p : string) : bool := String.prefix p s.

(** Truthiness of a string: the empty string is falsy. *)
Definition truthy (s : string) : bool := negb (bool_decide (s = "")).

(** [isLinkLocalAddress(address, addressFamily)]; [address && ...] is read
    as a condition by the only caller. *)
Definition isLinkLocalAddress (address addressFamily : string) : bool :=
  if bool_decide (addressFamily = "IPv4") then
    truthy address && startsWith address "169.254"
  else if bool_decide (addressFamily = "IPv6") then
    truthy address &&
    (startsWith address "fe8" || startsWith address "fe9" ||
     startsWith address "fea" || startsWith address "feb")
  else false.

(** The two objects [getIP] builds: [result] and [hasLinkLocalAddress]. *)
Record Resolution := {
  res_result : gmap string string;
  res_hasLinkLocalAddress : gmap string bool;
}.

Definition Resolution_init : Resolution :=
  {| res_result := ∅;
     res_hasLinkLocalAddress := <["IPv4" := false]> (<["IPv6" := false]> ∅) |}.

(** The body of the [for (const ip of ...)] loop of [getIP]. *)
Definition getIP_body (addressFamily : string) (allowLinkLocalAddress : bool)
    (acc : Resolution) (ip : NetworkInterfaceInfo) : Resolution :=
  if bool_decide (addressFamily = family ip) || bool_decide (addressFamily = "Any") then
    if negb (isLinkLocalAddress (address ip) (family ip)) then
      {| res_result := <[family ip := address ip]> (res_result acc);
         res_hasLinkLocalAddress := res_hasLinkLocalAddress acc |}
    else
      {| res_result :=
           if allowLinkLocalAddress
           then <[family ip := address ip]> (res_result acc)
           else res_result acc;
         res_hasLinkLocalAddress := <[family ip := true]> (res_hasLinkLocalAddress acc) |}
  else acc.

Definition getIP_loop (addressFamily : string) (allowLinkLocalAddress : bool)
    (ips : list NetworkInterfaceInfo) (acc : Resolution) : Resolution :=
  foldl (getIP_body addressFamily allowLinkLocalAddress) acc ips.

(** What [getIP] returns: [address] ([None] is [null]) and the flags. *)
Record IPResult := {
  ip_address : option (gmap string string);
  ip_hasLinkLocalAddress : gmap string bool;
}.

(** [getIP(allowLinkLocalAddress)], with the monitored interface and family
    and the current answer of [os.networkInterfaces()] made explicit.  This
    is what the call returns when it returns; for an interface name that the
    answer only inherits from [Object.prototype] the call throws instead,
    which [getIP_run] adds. *)
Definition getIP (networkInterfaces : gmap string (list NetworkInterfaceInfo))
    (networkInterface addressFamily : string) (allowLinkLocalAddress : bool) : IPResult :=
  let r :=
    match networkInterfaces !! networkInterface with
    | Some ips => getIP_loop addressFamily allowLinkLocalAddress ips Resolution_init
    | None => Resolution_init
    end in
  {| ip_address := if bool_decide (0 < size (res_result r))%nat then Some (res_result r) else None;
     ip_hasLinkLocalAddress := res_hasLinkLocalAddress r |}.

(** A flag read as a condition: [undefined] (no such property) is falsy. *)
Definition flag (flags : gmap string bool) (key : string) : bool :=
  default false (flags !! key).

(** ** The monitor object and its host *)

(** A client function passed to the constructor, and the object
    [setTimeout] returns. *)
Definition ClientFn := nat.
Definition Timeout := nat.

(** The fields of a [NetworkInterfaceMonitor]; [monitorData] is flattened.
    [handle] is [None] for [null] and [Some p] for the buffer
    [ref.alloc('pointer')] holding the pointer [p]. *)
Record NetworkInterfaceMonitor := {
  networkInterface : string;
  addressFamily : string;
  handle : option Z;
  currentAddress : option (gmap string string);
  checkTimer : option Timeout;
  checkTimerCounter : Z;
  checkTimerInterval : Z;
  checkTimerMaxTries : Z;
  clientCallback : option ClientFn;
}.

(** What the monitor does to the outside, in program order. *)
Inductive Effect :=
  | CallClient (f : ClientFn) (address : option (gmap string string)) (eventType : EventType)
  | CallNotifyIpInterfaceChange (Family : option Z)
  | CallCancelMibChangeNotify2 (NotificationHandle : Z)
  | CallSetTimeout (t : Timeout) (interval : Z)
  | CallClearTimeout (t : Timeout).

(** The Node runtime and the operating system.  [NotifyIpInterfaceChange]
    answers with its status and the pointer it leaves in the handle buffer;
    [pending] are the timeouts armed and neither run nor cleared. *)
Record Host := {
  networkInterfaces : gmap string (list NetworkInterfaceInfo);
  NotifyIpInterfaceChange : option Z → Z * Z;
  CancelMibChangeNotify2 : Z → Z;
  pending : list Timeout;
  nextTimeout : Timeout;
  effects : list Effect;
}.

Record World := {
  this : NetworkInterfaceMonitor;
  host : Host;
}.

(** [new NetworkInterfaceMonitor(networkInterface, addressFamily, callback)];
    [callback ?? null] is the option itself. *)
Definition constructor (name fam : string) (callback : option ClientFn) : NetworkInterfaceMonitor :=
  {| networkInterface := name;
     addressFamily := fam;
     handle := None;
     currentAddress := None;
     checkTimer := None;
     checkTimerCounter := 0;
     checkTimerInterval := DefaultCheckTimerInterval;
     checkTimerMaxTries := DefaultCheckTimerMaxTries;
     clientCallback := callback |}.

(** A host on which no timeout was ever armed. *)
Definition boot (ifs : gmap string (list NetworkInterfaceInfo))
    (notify : option Z → Z * Z) (cancel : Z → Z) : Host :=
  {| networkInterfaces := ifs;
     NotifyIpInterfaceChange := notify;
     CancelMibChangeNotify2 := cancel;
     pending := [];
     nextTimeout := 0%nat;
     effects := [] |}.

(** Field updates. *)
Definition set_handle (v : option Z) (m : NetworkInterfaceMonitor) :=
  {| networkInterface := networkInterface m; addressFamily := addressFamily m;
     handle := v; currentAddress := currentAddress m; checkTimer := checkTimer m;
     checkTimerCounter := checkTimerCounter m; checkTimerInterval := checkTimerInterval m;
     checkTimerMaxTries := checkTimerMaxTries m; clientCallback := clientCallback m |}.
Definition set_currentAddress (v : option (gmap string string)) (m : NetworkInterfaceMonitor) :=
  {| networkInterface := networkInterface m; addressFamily := addressFamily m;
     handle := handle m; currentAddress := v; checkTimer := checkTimer m;
     checkTimerCounter := checkTimerCounter m; checkTimerInterval := checkTimerInterval m;
     checkTimerMaxTries := checkTimerMaxTries m; clientCallback := clientCallback m |}.
Definition set_checkTimer (v : option Timeout) (m : NetworkInterfaceMonitor) :=
  {| networkInterface := networkInterface m; addressFamily := addressFamily m;
     handle := handle m; currentAddress := currentAddress m; checkTimer := v;
     checkTimerCounter := checkTimerCounter m; checkTimerInterval := checkTimerInterval m;
     checkTimerMaxTries := checkTimerMaxTries m; clientCallback := clientCallback m |}.
Definition set_checkTimerCounter (v : Z) (m : NetworkInterfaceMonitor) :=
  {| networkInterface := networkInterface m; addressFamily := addressFamily m;
     handle := handle m; currentAddress := currentAddress m; checkTimer := checkTimer m;
     checkTimerCounter := v; checkTimerInterval := checkTimerInterval m;
     checkTimerMaxTries := checkTimerMaxTries m; clientCallback := clientCallback m |}.
Definition set_checkTimerInterval (v : Z) (m : NetworkInterfaceMonitor) :=
  {| networkInterface := networkInterface m; addressFamily := addressFamily m;
     handle := handle m; currentAddress := currentAddress m; checkTimer := checkTimer m;
     checkTimerCounter := checkTimerCounter m; checkTimerInterval := v;
     checkTimerMaxTries := checkTimerMaxTries m; clientCallback := clientCallback m |}.
Definition set_checkTimerMaxTries (v : Z) (m : NetworkInterfaceMonitor) :=
  {| networkInterface := networkInterface m; addressFamily := addressFamily m;
     handle := handle m; currentAddress := currentAddress m; checkTimer := checkTimer m;
     checkTimerCounter := checkTimerCounter m; checkTimerInterval := checkTimerInterval m;
     checkTimerMaxTries := v; clientCallback := clientCallback m |}.
Definition set_clientCallback (v : option ClientFn) (m : NetworkInterfaceMonitor) :=
  {| networkInterface := networkInterface m; addressFamily := addressFamily m;
     handle := handle m; currentAddress := currentAddress m; checkTimer := checkTimer m;
     checkTimerCounter := checkTimerCounter m; checkTimerInterval := checkTimerInterval m;
     checkTimerMaxTries := checkTimerMaxTries m; clientCallback := v |}.

Definition set_pending (v : list Timeout) (h : Host) :=
  {| networkInterfaces := networkInterfaces h;
     NotifyIpInterfaceChange := NotifyIpInterfaceChange h;
     CancelMibChangeNotify2 := CancelMibChangeNotify2 h;
     pending := v; nextTimeout := nextTimeout h; effects := effects h |}.
Definition set_nextTimeout (v : Timeout) (h : Host) :=
  {| networkInterfaces := networkInterfaces h;
     NotifyIpInterfaceChange := NotifyIpInterfaceChange h;
     CancelMibChangeNotify2 := CancelMibChangeNotify2 h;
     pending := pending h; nextTimeout := v; effects := effects h |}.
Definition set_effects (v : list Effect) (h : Host) :=
  {| networkInterfaces := networkInterfaces h;
     NotifyIpInterfaceChange := NotifyIpInterfaceChange h;
     CancelMibChangeNotify2 := CancelMibChangeNotify2 h;
     pending := pending h; nextTimeout := nextTimeout h; effects := v |}.
Definition set_networkInterfaces (v : gmap string (list NetworkInterfaceInfo)) (h : Host) :=
  {| networkInterfaces := v;
     NotifyIpInterfaceChange := NotifyIpInterfaceChange h;
     CancelMibChangeNotify2 := CancelMibChangeNotify2 h;
     pending := pending h; nextTimeout := nextTimeout h; effects := effects h |}.
Definition set_native (notify : option Z → Z * Z) (cancel : Z → Z) (h : Host) :=
  {| networkInterfaces := networkInterfaces h;
     NotifyIpInterfaceChange := notify;
     CancelMibChangeNotify2 := cancel;
     pending := pending h; nextTimeout := nextTimeout h; effects := effects h |}.

(** ** A state monad over the world *)

Definition M (A : Type) : Type := World → A * World.

#[global] Instance M_ret : MRet M := λ A x w, (x, w).
#[global] Instance M_bind : MBind M := λ A B f c w,
  match c w with (x, w') => f x w' end.

(** Read a field of [this]; update [this]; update the host. *)
Definition read {A} (f : NetworkInterfaceMonitor → A) : M A :=
  λ w, (f (this w), w).
Definition write (f : NetworkInterfaceMonitor → NetworkInterfaceMonitor) : M unit :=
  λ w, (tt, {| this := f (this w); host := host w |}).
Definition on_host (f : Host → Host) : M unit :=
  λ w, (tt, {| this := this w; host := f (host w) |}).
Definition emit (e : Effect) : M unit :=
  on_host (λ h, set_effects (effects h ++ [e]) h).

(** [this.getIP(allowLinkLocalAddress)]. *)
Definition this_getIP (allowLinkLocalAddress : bool) : M IPResult :=
  λ w, (getIP (networkInterfaces (host w)) (networkInterface (this w))
              (addressFamily (this w)) allowLinkLocalAddress, w).

(** [setTimeout(() => this.onCheckTimer(), interval)]: a fresh timeout. *)
Definition setTimeout (interval : Z) : M Timeout :=
  λ w, let t := nextTimeout (host w) in
       (t, {| this := this w;
              host := set_effects (effects (host w) ++ [CallSetTimeout t interval])
                        (set_nextTimeout (S t) (set_pending (pending (host w) ++ [t]) (host w))) |}).

(** [clearTimeout(t)]. *)
Definition clearTimeout (t : Timeout) : M unit :=
  on_host (λ h, set_effects (effects h ++ [CallClearTimeout t])
                  (set_pending (filter (λ t', t' ≠ t) (pending h)) h)).

(** The two native calls; [NotifyIpInterfaceChange] writes the handle
    buffer it is given, which is [this.monitorData.handle]. *)
Definition call_NotifyIpInterfaceChange (Family : option Z) : M Z :=
  λ w, let '(status, p) := NotifyIpInterfaceChange (host w) Family in
       (status, {| this := set_handle (Some p) (this w);
                   host := set_effects (effects (host w) ++ [CallNotifyIpInterfaceChange Family]) (host w) |}).
Definition call_CancelMibChangeNotify2 (p : Z) : M Z :=
  λ w, (CancelMibChangeNotify2 (host w) p,
        {| this := this w;
           host := set_effects (effects (host w) ++ [CallCancelMibChangeNotify2 p]) (host w) |}).

(** [this.clientCallback(address, eventType)] behind [if (this.clientCallback)]. *)
Definition call_clientCallback (eventType : EventType) : M unit :=
  cb ← read clientCallback;
  match cb with
  | Some f => cur ← read currentAddress; emit (CallClient f cur eventType)
  | None => mret tt
  end.

(** ** The methods *)

(** [start()].  [this.callerContext], allocated before the handle, is
    passed to the native call and never read. *)
Definition start : M bool :=
  h ← read handle;
  match h with
  | Some _ => mret true
  | None =>
      r ← this_getIP true;
      write (set_currentAddress (ip_address r));;
      call_clientCallback Initial;;
      write (set_handle (Some 0));;
      fam ← read addressFamily;
      status ← call_NotifyIpInterfaceChange (AddressFamilyApiValue !! fam);
      mret (bool_decide (status = 0))
  end.

(** [NetworkInterfaceMonitor.cancelNotification(monitorData)]. *)
Definition cancelNotification : M bool :=
  h ← read handle;
  match h with
  | Some p =>
      status ← call_CancelMibChangeNotify2 p;
      if bool_decide (status = 0) then write (set_handle None) else mret tt
  | None => mret tt
  end;;
  h' ← read handle;
  mret (bool_decide (h' = None)).

(** [stop()]. *)
Definition stop : M bool :=
  write (set_clientCallback None);;
  cancelNotification.

(** The [for (const family in address)] loop of [detectIPChange], from
    [eventType = EventType.Initial]. *)
Definition family_loop (current address : gmap string string) : EventType :=
  foldl (λ eventType '(fam, _),
           if bool_decide (current !! fam ≠ address !! fam) then IPChanged else eventType)
        Initial (map_to_list address).

(** [detectIPChange()]. *)
Definition detectIPChange : M unit :=
  r ← this_getIP false;
  previous ← read currentAddress;
  eventType ←
    match ip_address r with
    | Some address =>
        let eventType :=
          match previous with
          | None => IPAssigned
          | Some current => family_loop current address
          end in
        t ← read checkTimer;
        match t with
        | Some t =>
            clearTimeout t;;
            write (set_checkTimer None);;
            write (set_checkTimerCounter 0)
        | None => mret tt
        end;;
        mret eventType
    | None =>
        match previous with
        | Some _ => mret IPRemoved
        | None =>
            fam ← read addressFamily;
            t ← read checkTimer;
            if flag (ip_hasLinkLocalAddress r) fam && bool_decide (t = None) then
              interval ← read checkTimerInterval;
              t' ← setTimeout interval;
              write (set_checkTimer (Some t'));;
              mret Initial
            else mret Initial
        end
    end;
  write (set_currentAddress (ip_address r));;
  if bool_decide (eventType ≠ Initial) then call_clientCallback eventType else mret tt.

(** [onNotifyIpInterfaceChange(callerContext, row, notificationType)]. *)
Definition onNotifyIpInterfaceChange : M unit := detectIPChange.

(** [onCheckTimer()]. *)
Definition onCheckTimer : M unit :=
  write (set_checkTimer None);;
  counter ← read checkTimerCounter;
  write (set_checkTimerCounter (counter + 1));;
  maxTries ← read checkTimerMaxTries;
  if bool_decide (counter < maxTries) then detectIPChange
  else write (set_checkTimerCounter 0).

(** The two setters. *)
Definition ipCheckTimerInterval (interval : Z) : M unit :=
  write (set_checkTimerInterval interval).
Definition ipCheckTimerMaxTries (maxTries : Z) : M unit :=
  write (set_checkTimerMaxTries maxTries).

(** ** The event loop around the monitor *)

(** The event loop runs the timeout [t]: a one-shot timeout leaves the
    pending list, then its closure calls [onCheckTimer]; a timeout that is
    not pending does not run. *)
Definition fire (t : Timeout) : M unit :=
  λ w, if bool_decide (t ∈ pending (host w)) then
         (on_host (λ h, set_pending (filter (λ t', t' ≠ t) (pending h)) h);; onCheckTimer) w
       else (tt, w).

(** What can happen to a monitor: the client calls a method or a setter,
    the native layer delivers a notification, a timeout runs, or the host
    changes under it. *)
Inductive Action :=
  | DoStart
  | DoStop
  | DoSetInterval (interval : Z)
  | DoSetMaxTries (maxTries : Z)
  | Notification
  | Fire (t : Timeout)
  | HostInterfaces (ifs : gmap string (list NetworkInterfaceInfo))
  | HostNative (notify : option Z → Z * Z) (cancel : Z → Z).

Definition step (a : Action) (w : World) : World :=
  match a with
  | DoStart => (start w).2
  | DoStop => (stop w).2
  | DoSetInterval i => (ipCheckTimerInterval i w).2
  | DoSetMaxTries n => (ipCheckTimerMaxTries n w).2
  | Notification => (onNotifyIpInterfaceChange w).2
  | Fire t => (fire t w).2
  | HostInterfaces ifs => {| this := this w; host := set_networkInterfaces ifs (host w) |}
  | HostNative notify cancel => {| this := this w; host := set_native notify cancel (host w) |}
  end.

Definition run (actions : list Action) (w : World) : World :=
  foldl (λ w a, step a w) w actions.

(** The client calls recorded in a log. *)
Definition client_calls (log : list Effect) : list (option (gmap string string) * EventType) :=
  omap (λ e, match e with CallClient _ a ev => Some (a, ev) | _ => None end) log.

(** The native subscriptions requested in a log. *)
Definition subscriptions (log : list Effect) : list (option Z) :=
  omap (λ e, match e with CallNotifyIpInterfaceChange f => Some f | _ => None end) log.

(** The client calls a computation adds to the log. *)
Definition emitted {A} (c : M A) (w : World) : list (option (gmap string string) * EventType) :=
  client_calls (drop (length (effects (host w))) (effects (host (c w).2))).

(** The event loop left alone: it runs the pending timeouts, oldest first,
    until none is pending or [n] of them have run, and counts them. *)
Fixpoint drain (n : nat) (w : World) : nat * World :=
  match n with
  | O => (O, w)
  | S n' =>
      match pending (host w) with
      | [] => (O, w)
      | t :: _ => let '(k, w') := drain n' (fire t w).2 in (S k, w')
      end
  end.

(** ** Notions the properties are stated with *)

(** An entry passes the family filter of [getIP]. *)
Definition passes_filter (addressFamily : string) (ip : NetworkInterfaceInfo) : Prop :=
  addressFamily = family ip ∨ addressFamily = "Any".

(** An entry [getIP] takes into the result set. *)
Definition included (addressFamily : string) (allowLinkLocalAddress : bool)
    (ip : NetworkInterfaceInfo) : Prop :=
  passes_filter addressFamily ip ∧
  (isLinkLocalAddress (address ip) (family ip) = false ∨ allowLinkLocalAddress = true).

#[global] Instance passes_filter_dec fam ip : Decision (passes_filter fam ip).
Proof. unfold passes_filter. apply _. Defined.
#[global] Instance included_dec fam allow ip : Decision (included fam allow ip).
Proof. unfold included. apply _. Defined.

(** The included addresses of family [f], in enumeration order. *)
Definition included_addresses (addressFamily : string) (allowLinkLocalAddress : bool)
    (f : string) (ips : list NetworkInterfaceInfo) : list string :=
  address <$> filter (λ ip, included addressFamily allowLinkLocalAddress ip ∧ family ip = f) ips.

(** Addresses as numbers: 32 bits for IPv4, 128 bits for IPv6, and the two
    link-local blocks by their leading bits. *)
Definition in_169_254_0_0_16 (a : Z) : Prop :=
  0 ≤ a < 2 ^ 32 ∧ Z.shiftr a 16 = 0xA9FE.
Definition in_fe80_10 (a : Z) : Prop :=
  0 ≤ a < 2 ^ 128 ∧ Z.shiftr a 118 = 0x3FA.

(** The text in which the runtime reports an address.  IPv4: the four
    octets in decimal, separated by dots.  IPv6 (first group not zero): the
    first group in lower-case hexadecimal without leading zeros, a colon,
    and the rest of the address in any of its forms. *)
Definition decimal (n : Z) : string :=
  DecimalString.NilZero.string_of_uint (N.to_uint (Z.to_N n)).
Definition hexadecimal (n : Z) : string :=
  HexadecimalString.NilZero.string_of_uint (N.to_hex_uint (Z.to_N n)).
Definition octet (a : Z) (i : Z) : Z := Z.land (Z.shiftr a (8 * (3 - i))) 255.
Definition dotted_decimal (a : Z) : string :=
  decimal (octet a 0) ++ "." ++ decimal (octet a 1) ++ "." ++
  decimal (octet a 2) ++ "." ++ decimal (octet a 3).
Definition ipv6_text (a : Z) (s : string) : Prop :=
  ∃ rest : string, s = hexadecimal (Z.shiftr a 112) ++ ":" ++ rest.

(** An entry that holds a link-local address of its family. *)
Definition link_local_entry (ip : NetworkInterfaceInfo) : Prop :=
  (family ip = "IPv4" ∧ ∃ a, in_169_254_0_0_16 a ∧ address ip = dotted_decimal a) ∨
  (family ip = "IPv6" ∧ ∃ a, in_fe80_10 a ∧ ipv6_text a (address ip)).

(** The four prefixes [isLinkLocalAddress] tests for IPv6. *)
Definition fe8_to_feb (s : string) : bool :=
  startsWith s "fe8" || startsWith s "fe9" || startsWith s "fea" || startsWith s "feb".

(** ** Hosts and monitors of the examples *)

(** An interface with two IPv4 addresses around a link-local IPv6 one. *)
Definition two_v4 : gmap string (list NetworkInterfaceInfo) :=
  {[ "Ethernet" := [ {| address := "10.0.0.1"; family := "IPv4" |};
                     {| address := "fe80::1"; family := "IPv6" |};
                     {| address := "10.0.0.2"; family := "IPv4" |} ] ]}.

(** An interface whose only address is a link-local IPv6 one. *)
Definition v6_link_local_only : gmap string (list NetworkInterfaceInfo) :=
  {[ "Ethernet" := [ {| address := "fe80::1"; family := "IPv6" |} ] ]}.

(** An interface with a link-local and a routable IPv4 address. *)
Definition v4_both : gmap string (list NetworkInterfaceInfo) :=
  {[ "Ethernet" := [ {| address := "169.254.1.5"; family := "IPv4" |};
                     {| address := "192.168.0.10"; family := "IPv4" |} ] ]}.

(** A subscription that succeeds and one that fails (87 is
    ERROR_INVALID_PARAMETER); a cancellation that succeeds. *)
Definition notify_ok : option Z → Z * Z := λ _, (0, 4096).
Definition notify_fails : option Z → Z * Z := λ _, (87, 0).
Definition cancel_ok : Z → Z := λ _, 0.

Definition on_ethernet (ips : list NetworkInterfaceInfo) : gmap string (list NetworkInterfaceInfo) :=
  {[ "Ethernet" := ips ]}.

Definition v4_routable := {| address := "10.0.0.1"; family := "IPv4" |}.
Definition v4_link_local := {| address := "169.254.1.5"; family := "IPv4" |}.
Definition v6_routable := {| address := "2001:db8::1"; family := "IPv6" |}.

(** A monitor for any family, with a client function, on an interface that
    holds a routable address of each family; nothing has run yet. *)
Definition dual_stack : World :=
  {| this := constructor "Ethernet" "Any" (Some 7%nat);
     host := boot (on_ethernet [v4_routable; v6_routable]) notify_ok cancel_ok |}.

(** A monitor built without a client function, on a routable interface. *)
Definition without_callback : World :=
  {| this := constructor "Ethernet" "IPv4" None;
     host := boot (on_ethernet [v4_routable]) notify_ok cancel_ok |}.

(** A monitor for IPv4 with a client function, not started, on an
    interface that holds only a link-local IPv4 address. *)
Definition link_local_only : World :=
  {| this := constructor "Ethernet" "IPv4" (Some 7%nat);
     host := boot (on_ethernet [v4_link_local]) notify_ok cancel_ok |}.

(** The same monitor on a host whose subscription call fails. *)
Definition failing_subscription : World :=
  {| this := constructor "Ethernet" "IPv4" (Some 7%nat);
     host := boot (on_ethernet [v4_routable]) notify_fails cancel_ok |}.

(** The monitor [w] waits for a retry: it knows no address, exactly one
    timeout [t] is pending and it is [checkTimer], [c] attempts are counted;
    since [w0] the configuration, the monitored interface and the host's
    addresses are the same and no client call was made. *)
Definition retrying (w0 w : World) (t : Timeout) (c : Z) : Prop :=
  currentAddress (this w) = None ∧
  checkTimer (this w) = Some t ∧
  pending (host w) = [t] ∧
  checkTimerCounter (this w) = c ∧
  checkTimerMaxTries (this w) = checkTimerMaxTries (this w0) ∧
  networkInterface (this w) = networkInterface (this w0) ∧
  addressFamily (this w) = addressFamily (this w0) ∧
  networkInterfaces (host w) = networkInterfaces (host w0) ∧
  client_calls (effects (host w)) = client_calls (effects (host w0)).

(** The monitor [w] has stopped retrying: no timeout is pending, the
    counter is back to zero, and still no client call was made. *)
Definition gave_up (w0 w : World) : Prop :=
  currentAddress (this w) = None ∧
  checkTimer (this w) = None ∧
  pending (host w) = [] ∧
  checkTimerCounter (this w) = 0 ∧
  client_calls (effects (host w)) = client_calls (effects (host w0)).

(** Every resolution for the monitor of [w] finds no address to report and
    a link-local one in the monitored family. *)
Definition only_link_local (w : World) : Prop :=
  let r := getIP (networkInterfaces (host w)) (networkInterface (this w))
             (addressFamily (this w)) false in
  ip_address r = None ∧ flag (ip_hasLinkLocalAddress r) (addressFamily (this w)) = true.

(** ** The exception of the resolution *)

(** The object [os.networkInterfaces()] returns is a plain object.  Reading
    [networkInterfaces[name]] for a name it does not hold finds what plain
    objects inherit from [Object.prototype]: these twelve properties, all of
    them truthy and none of them iterable. *)
Definition Object_prototype : list string :=
  [ "constructor"; "__defineGetter__"; "__defineSetter__"; "hasOwnProperty";
    "__lookupGetter__"; "__lookupSetter__"; "isPrototypeOf"; "propertyIsEnumerable";
    "toString"; "valueOf"; "__proto__"; "toLocaleString" ].

(** [networkInterfaces[name]] is an inherited property: the guard of [getIP]
    lets it through and [for (const ip of ...)] throws a TypeError. *)
Definition inherited (networkInterfaces : gmap string (list NetworkInterfaceInfo))
    (name : string) : Prop :=
  networkInterfaces !! name = None ∧ name ∈ Object_prototype.

#[global] Instance inherited_dec ifs name : Decision (inherited ifs name).
Proof. unfold inherited. apply _. Defined.

(** [getIP] as the runtime runs it: [None] is the TypeError, and when the
    call returns its result is that of [getIP]. *)
Definition getIP_run (networkInterfaces : gmap string (list NetworkInterfaceInfo))
    (networkInterface addressFamily : string) (allowLinkLocalAddress : bool)
    : option IPResult :=
  if decide (inherited networkInterfaces networkInterface) then None
  else Some (getIP networkInterfaces networkInterface addressFamily allowLinkLocalAddress).

(** [start()] as the runtime runs it.  On a monitor that has a handle it
    returns at once; otherwise [getIP(true)] is its first statement, and when
    that throws nothing has been done and [start()] throws ([None]). *)
Definition start_run (w : World) : option (bool * World) :=
  match handle (this w) with
  | Some _ => Some (start w)
  | None =>
      match getIP_run (networkInterfaces (host w)) (networkInterface (this w))
              (addressFamily (this w)) true with
      | Some _ => Some (start w)
      | None => None
      end
  end.

(** [detectIPChange()] as the runtime runs it: [getIP()] is its first
    statement too. *)
Definition detectIPChange_run (w : World) : option (unit * World) :=
  match getIP_run (networkInterfaces (host w)) (networkInterface (this w))
          (addressFamily (this w)) false with
  | Some _ => Some (detectIPChange w)
  | None => None
  end.

(** ** Notions for the further properties *)

(** [p] and [s] differ at a position both have: [p] is then no prefix of
    any extension of [s]. *)
Fixpoint clash (p s : string) : bool :=
  match p, s with
  | String a p', String b s' => if Ascii.eqb a b then clash p' s' else true
  | _, _ => false
  end.

(** The first two octets of an IPv4 text, and whether the code's prefix
    test is decided by them the way the block 169.254.0.0/16 is. *)
Definition v4_head (o0 o1 : Z) : string :=
  decimal o0 ++ "." ++ decimal o1 ++ ".".
Definition v4_head_decides (o0 o1 : Z) : bool :=
  if ((o0 =? 169) && (o1 =? 254))%Z
  then startsWith (v4_head o0 o1) "169.254"
  else clash "169.254" (v4_head o0 o1).

(** The first group of an IPv6 text, and whether the code's four prefix
    tests are decided by it. *)
Definition v6_head (h : Z) : string := hexadecimal h ++ ":".
Definition v6_accepted (h : Z) : bool :=
  ((0xFE80 <=? h) && (h <=? 0xFEBF) || (0xFE8 <=? h) && (h <=? 0xFEB))%Z.
Definition v6_head_decides (h : Z) : bool :=
  if v6_accepted h then fe8_to_feb (v6_head h)
  else clash "fe8" (v6_head h) && clash "fe9" (v6_head h) &&
       clash "fea" (v6_head h) && clash "feb" (v6_head h).

(** [f] holds of the [n] integers from [z] on. *)
Fixpoint all_from (n : nat) (z : Z) (f : Z → bool) : bool :=
  match n with
  | O => true
  | S n' => f z && all_from n' (z + 1) f
  end.

(** The message the finalizer gives to [warning]. *)
Definition not_stopped_warning (networkInterface addressFamily : string) : string :=
  "NetworkInterfaceMonitor on " ++ String (ascii_of_nat 34) networkInterface ++
  String (ascii_of_nat 34) " for address family " ++ addressFamily ++
  " is not properly stopped! You should call NetworkInterfaceMonitor.stop() to stop monitoring a network interface when it is no longer needed!".

(** The callback of the [FinalizationRegistry], run on the [monitorData] of
    a monitor that was collected; it returns the message it gave to
    [warning], if it gave one. *)
Definition finalizer : M (option string) :=
  h ← read handle;
  match h with
  | Some _ =>
      name ← read networkInterface;
      fam ← read addressFamily;
      cancelNotification;;
      mret (Some (not_stopped_warning name fam))
  | None => mret None
  end.

(** The retry timeout and the event loop agree: what is pending is what
    [checkTimer] holds, so at most one timeout; and the attempt counter is
    not negative. *)
Definition timer_consistent (w : World) : Prop :=
  pending (host w) = match checkTimer (this w) with Some t => [t] | None => [] end ∧
  (0 ≤ checkTimerCounter (this w))%Z.

(** What a client call of a monitor for [fam] may carry. *)
Definition address_ok (fam : string) (a : option (gmap string string)) : Prop :=
  match a with
  | None => True
  | Some A => A ≠ ∅ ∧ (fam ≠ "Any" → ∃ s, A = {[ fam := s ]})
  end.
Definition call_ok (fam : string) (c : option (gmap string string) * EventType) : Prop :=
  address_ok fam c.1 ∧
  match c.2 with
  | Initial => True
  | IPRemoved => c.1 = None
  | IPAssigned | IPChanged => c.1 ≠ None
  end.

(** An effect that is not a call of the native layer. *)
Definition not_native (e : Effect) : Prop :=
  match e with
  | CallNotifyIpInterfaceChange _ | CallCancelMibChangeNotify2 _ => False
  | _ => True
  end.

(** The effects a computation adds to the log. *)
Definition added {A} (c : M A) (w : World) : list Effect :=
  drop (length (effects (host w))) (effects (host (c w).2)).

(** ** The example client (example/example.js) *)

(** [${v}] in a template string, for a property that may be missing. *)
Definition interpolate (v : option string) : string := default "undefined" v.

(** The callback the example passes to the monitor: the messages it gives
    to [print], in order, and whether it then throws ([address] is [null]
    where [address[addressFamily]] is read). *)
Definition example_callback (networkInterface addressFamily : string)
    (address : option (gmap string string)) (eventType : EventType) : list string * bool :=
  match eventType with
  | Initial =>
      match address with
      | Some A => (["Current address: " ++ interpolate (A !! addressFamily)], false)
      | None => (["Network interface '" ++ networkInterface ++ "' is inactive."], false)
      end
  | IPChanged =>
      match address with
      | Some A => ([addressFamily ++ " address changed: " ++ interpolate (A !! addressFamily)], false)
      | None => ([], true)
      end
  | IPAssigned =>
      match address with
      | Some A => (["Network interface '" ++ networkInterface ++ "' is now active.";
                    addressFamily ++ " address assigned: " ++ interpolate (A !! addressFamily)], false)
      | None => (["Network interface '" ++ networkInterface ++ "' is now active."], true)
      end
  | IPRemoved => (["Network interface '" ++ networkInterface ++ "' is now inactive."], false)
  end.

(** What the example callback prints when it is given the address of the
    monitored family. *)
Definition example_messages (networkInterface addressFamily : string)
    (a : option string) (eventType : EventType) : list string :=
  match eventType, a with
  | Initial, Some s => ["Current address: " ++ s]
  | Initial, None => ["Network interface '" ++ networkInterface ++ "' is inactive."]
  | IPChanged, Some s => [addressFamily ++ " address changed: " ++ s]
  | IPAssigned, Some s => ["Network interface '" ++ networkInterface ++ "' is now active.";
                           addressFamily ++ " address assigned: " ++ s]
  | IPRemoved, _ => ["Network interface '" ++ networkInterface ++ "' is now inactive."]
  | _, None => []
  end.

(** ** The utility that lists the interfaces (lib/show-interfaces.js) *)

(** A property value of an object of [os.networkInterfaces()]. *)
Inductive Value :=
  | VString (s : string)
  | VNumber (n : Z)
  | VBoolean (b : bool)
  | VNull.

#[global] Instance Value_eq_dec : EqDecision Value.
Proof. solve_decision. Defined.

(** [String.prototype.toLowerCase] on ASCII text. *)
Definition ascii_toLowerCase (c : ascii) : ascii :=
  let n := nat_of_ascii c in
  if (65 <=? n)%nat && (n <=? 90)%nat then ascii_of_nat (n + 32) else c.
Fixpoint ascii_lower (s : string) : string :=
  match s with
  | EmptyString => EmptyString
  | String c s' => String (ascii_toLowerCase c) (ascii_lower s')
  end.

(** [String.prototype.toLowerCase] is a parameter of the script's model:
    the properties hold for the runtime's function whatever it does outside
    ASCII; the examples use [ascii_lower]. *)
Section show_interfaces.
Context (toLowerCase : string → string).

(** [family], from [process.argv[2]] when there is one. *)
Definition argument_family (argv2 : option string) : option string :=
  match argv2 with
  | None => None
  | Some a =>
      let family := toLowerCase a in
      Some (if bool_decide (family = "4") || bool_decide (family = "v4") then "ipv4"
            else if bool_decide (family = "6") || bool_decide (family = "v6") then "ipv6"
            else family)
  end.

(** The [for (const property in ipAddress)] loop: what is left of the
    object after the deletions. *)
Definition deleted (family : option string) (property : string) : Prop :=
  property ≠ "address" ∧ (property ≠ "family" ∨ family ≠ None).
Definition strip (family : option string) (ipAddress : gmap string Value) : gmap string Value :=
  filter (λ kv, ¬ deleted family kv.1) ipAddress.

(** The condition of the filter callback; [None] is the TypeError of
    [ipAddress.family.toLowerCase()] on a family that is not a string. *)
Definition selects (family : option string) (ipAddress : gmap string Value) : option bool :=
  match family with
  | None => Some true
  | Some f =>
      match ipAddress !! "family" with
      | Some (VString s) => Some (bool_decide (toLowerCase s = f))
      | _ => None
      end
  end.

(** [interfaces[name].filter(...)]. *)
Fixpoint filter_addresses (family : option string) (l : list (gmap string Value))
    : option (list (gmap string Value)) :=
  match l with
  | [] => Some []
  | ipAddress :: l' =>
      match selects family ipAddress with
      | None => None
      | Some keep =>
          match filter_addresses family l' with
          | None => None
          | Some rest => Some (if keep then strip family ipAddress :: rest else rest)
          end
      end
  end.

(** The object the script prints.  The [for (const name in interfaces)]
    loop replaces the array of every interface by its filtered array; the
    script throws, and prints nothing, when the filter of one of them
    throws ([None]). *)
Definition show_interfaces (argv2 : option string)
    (interfaces : gmap string (list (gmap string Value)))
    : option (gmap string (list (gmap string Value))) :=
  let family := argument_family argv2 in
  if bool_decide (map_Forall (λ _ l, is_Some (filter_addresses family l)) interfaces)
  then Some ((λ l, default [] (filter_addresses family l)) <$> interfaces)
  else None.

End show_interfaces.

(** The sample of the README, with all the properties the runtime gives. *)
Definition sample_entry (addr fam : string) : gmap string Value :=
  {[ "address" := VString addr; "netmask" := VString "255.255.255.0";
     "family" := VString fam; "mac" := VString "00:00:00:00:00:00";
     "internal" := VBoolean false; "cidr" := VNull ]}.
Definition sample_interfaces : gmap string (list (gmap string Value)) :=
  {[ "Ethernet" := [sample_entry "fe80::200:ff:fe00:0" "IPv6"; sample_entry "192.168.0.1" "IPv4"];
     "Loopback Pseudo-Interface 1" := [sample_entry "::1" "IPv6"; sample_entry "127.0.0.1" "IPv4"] ]}.

(** An entry whose family is a string, and one whose family reads [f] in
    lower case. *)
Definition family_is_string (ipAddress : gmap string Value) : Prop :=
  ∃ s, ipAddress !! "family" = Some (VString s).
Definition family_reads (toLowerCase : string → string) (f : string)
    (ipAddress : gmap string Value) : Prop :=
  ∃ s, ipAddress !! "family" = Some (VString s) ∧ toLowerCase s = f.

#[global] Instance family_reads_dec toLowerCase f o : Decision (family_reads toLowerCase f o).
Proof.
  unfold family_reads. destruct (o !! "family") as [[s | | |] |].
  - destruct (decide (toLowerCase s = f)) as [H | H].
    + left. by exists s.
    + right. intros (s' & [= <-] & ?). done.
  - right. by intros (s' & [=] & _).
  - right. by intros (s' & [=] & _).
  - right. by intros (s' & [=] & _).
  - right. by intros (s' & [=] & _).
Defined.

(** * Properties *)

(** ** Address resolution *)

Example isLinkLocalAddress_v4 : isLinkLocalAddress "169.254.1.5" "IPv4" = true.
Proof. reflexivity. Qed.
Example isLinkLocalAddress_v6 : isLinkLocalAddress "fe80::200:ff:fe00:0" "IPv6" = true.
Proof. reflexivity. Qed.
Example isLinkLocalAddress_routable : isLinkLocalAddress "192.168.0.1" "IPv4" = false.
Proof. reflexivity. Qed.
Example dotted_decimal_ex : dotted_decimal 0xA9FE0105 = "169.254.1.5".
Proof. reflexivity. Qed.
Example dotted_decimal_ex2 : dotted_decimal 0xC0A8000A = "192.168.0.10".
Proof. reflexivity. Qed.
Example hexadecimal_ex : hexadecimal 0xFE80 = "fe80".
Proof. reflexivity. Qed.

Section getIP_facts.
Context (fam : string) (allow : bool).

Lemma getIP_loop_snoc ips ip acc :
  getIP_loop fam allow (ips ++ [ip]) acc =
  getIP_body fam allow (getIP_loop fam allow ips acc) ip.
Proof. unfold getIP_loop. by rewrite foldl_app. Qed.

(** An entry changes the result set exactly when it is included, and then
    it sets the slot of its family to its address. *)
Lemma getIP_body_result acc ip :
  res_result (getIP_body fam allow acc ip) =
  if decide (included fam allow ip)
  then <[family ip := address ip]> (res_result acc)
  else res_result acc.
Proof.
  unfold getIP_body, included, passes_filter.
  destruct (decide _) as [[Hf Hl]|Hn].
  - rewrite (orb_true_intro _ _) by
      (destruct Hf; [left | right]; by apply bool_decide_eq_true).
    destruct Hl as [-> | ->]; simpl; [done |].
    by destruct (isLinkLocalAddress _ _).
  - destruct (bool_decide (fam = family ip) || bool_decide (fam = "Any")) eqn:E; [| done].
    apply orb_prop in E.
    assert (fam = family ip ∨ fam = "Any") as Hf
      by (destruct E as [E|E]; apply bool_decide_eq_true in E; auto).
    destruct (isLinkLocalAddress (address ip) (family ip)) eqn:El; simpl.
    + destruct allow; [| done]. exfalso; apply Hn; auto.
    + exfalso; apply Hn; auto.
Qed.

Lemma getIP_loop_result ips : ∀ acc f,
  res_result (getIP_loop fam allow ips acc) !! f =
  match last (included_addresses fam allow f ips) with
  | Some a => Some a
  | None => res_result acc !! f
  end.
Proof.
  induction ips as [| ip ips IH]; intros acc f; [done |].
  change (getIP_loop fam allow (ip :: ips) acc)
    with (getIP_loop fam allow ips (getIP_body fam allow acc ip)).
  rewrite IH, getIP_body_result. unfold included_addresses.
  rewrite filter_cons. destruct (decide (included fam allow ip ∧ family ip = f)) as [[Hi Hf]|Hn].
  - rewrite fmap_cons, last_cons. destruct (last _); [done |].
    rewrite decide_True by done. subst f. by rewrite lookup_insert_eq.
  - destruct (last _); [done |].
    destruct (decide (included fam allow ip)); [| done].
    rewrite lookup_insert_ne; [done |]. intros Hf. by apply Hn.
Qed.
End getIP_facts.

(** *** The two link-local blocks and the prefixes the code tests *)

Lemma truthy_cons c s : truthy (String c s) = true.
Proof. unfold truthy. by rewrite bool_decide_eq_false_2. Qed.

Lemma append_cons c (s t : string) : String c s +:+ t = String c (s +:+ t).
Proof. reflexivity. Qed.
Lemma append_nil (t : string) : "" +:+ t = t.
Proof. reflexivity. Qed.

Lemma octets_169_254 a :
  in_169_254_0_0_16 a → octet a 0 = 169 ∧ octet a 1 = 254.
Proof.
  intros [Ha H16]. unfold octet. split.
  - change (8 * (3 - 0)) with (16 + 8).
    rewrite <- Z.shiftr_shiftr by lia. by rewrite H16.
  - change (8 * (3 - 1)) with 16. by rewrite H16.
Qed.

(** Every address of 169.254.0.0/16 is printed with the prefix the code
    looks for. *)
Lemma isLinkLocalAddress_dotted_decimal a :
  in_169_254_0_0_16 a → isLinkLocalAddress (dotted_decimal a) "IPv4" = true.
Proof.
  intros H. destruct (octets_169_254 a H) as [H0 H1].
  unfold dotted_decimal. rewrite H0, H1.
  change (decimal 169) with "169". change (decimal 254) with "254".
  unfold isLinkLocalAddress. rewrite bool_decide_eq_true_2 by done.
  rewrite !append_cons, !append_nil, truthy_cons. reflexivity.
Qed.

Lemma prefix_nil (s : string) : String.prefix "" s = true.
Proof. by destruct s. Qed.

Lemma startsWith_app (p s rest : string) :
  startsWith s p = true → startsWith (s ++ rest) p = true.
Proof.
  unfold startsWith. revert s.
  induction p as [| c p IH]; intros s; [intros _; apply prefix_nil |].
  destruct s as [| d s]; [done |]. rewrite append_cons. simpl.
  destruct (ascii_dec c d); [apply IH | done].
Qed.

Lemma fe8_to_feb_app s rest : fe8_to_feb s = true → fe8_to_feb (s ++ rest) = true.
Proof.
  unfold fe8_to_feb. rewrite !orb_true_iff.
  intros [[[H|H]|H]|H]; eauto using startsWith_app.
Qed.

Lemma hexadecimal_fe80_febf_nat (k : nat) :
  (k < 64)%nat → fe8_to_feb (hexadecimal (0xFE80 + Z.of_nat k)) = true.
Proof.
  intros Hk.
  do 64 (destruct k as [| k]; [vm_compute; reflexivity |]). lia.
Qed.

Lemma first_group_fe80_10 a :
  in_fe80_10 a → 0xFE80 ≤ Z.shiftr a 112 < 0xFE80 + 64.
Proof.
  intros [Ha H]. change 118 with (112 + 6) in H.
  rewrite <- Z.shiftr_shiftr in H by lia.
  rewrite (Z.shiftr_div_pow2 _ 6) in H by lia.
  change (2 ^ 6) with 64 in H.
  pose proof (Z.div_mod (Z.shiftr a 112) 64 ltac:(lia)).
  pose proof (Z.mod_pos_bound (Z.shiftr a 112) 64 ltac:(lia)). lia.
Qed.

(** Every address of fe80::/10 is printed with one of the four prefixes the
    code looks for. *)
Lemma isLinkLocalAddress_ipv6_text a s :
  in_fe80_10 a → ipv6_text a s → isLinkLocalAddress s "IPv6" = true.
Proof.
  intros Ha [rest ->]. apply first_group_fe80_10 in Ha.
  set (h := Z.shiftr a 112) in *.
  assert (fe8_to_feb (hexadecimal h) = true) as Hh.
  { replace h with (0xFE80 + Z.of_nat (Z.to_nat (h - 0xFE80))) by lia.
    apply hexadecimal_fe80_febf_nat. lia. }
  unfold isLinkLocalAddress.
  rewrite bool_decide_eq_false_2 by done. rewrite bool_decide_eq_true_2 by done.
  apply andb_true_intro. split.
  - destruct (hexadecimal h) eqn:E; [done | apply truthy_cons].
  - by apply fe8_to_feb_app.
Qed.

Lemma link_local_entry_detected ip :
  link_local_entry ip → isLinkLocalAddress (address ip) (family ip) = true.
Proof.
  intros [[-> (a & Ha & ->)] | [-> (a & Ha & Hs)]].
  - by apply isLinkLocalAddress_dotted_decimal.
  - by apply (isLinkLocalAddress_ipv6_text a).
Qed.

(** *** What [getIP] returns *)

Section getIP_flags.
Context (fam : string) (allow : bool).

Lemma getIP_body_flag_keeps acc ip f :
  flag (res_hasLinkLocalAddress acc) f = true →
  flag (res_hasLinkLocalAddress (getIP_body fam allow acc ip)) f = true.
Proof.
  intros H. unfold getIP_body.
  destruct (_ || _); [| done].
  destruct (negb _); [done |]. simpl. unfold flag in *.
  destruct (decide (family ip = f)) as [-> | Hne].
  - by rewrite lookup_insert_eq.
  - by rewrite lookup_insert_ne.
Qed.

Lemma getIP_loop_flag_keeps ips : ∀ acc f,
  flag (res_hasLinkLocalAddress acc) f = true →
  flag (res_hasLinkLocalAddress (getIP_loop fam allow ips acc)) f = true.
Proof.
  induction ips as [| ip ips IH]; intros acc f H; [done |].
  apply (IH (getIP_body fam allow acc ip)). by apply getIP_body_flag_keeps.
Qed.

Lemma getIP_body_flag_sets acc ip :
  passes_filter fam ip →
  isLinkLocalAddress (address ip) (family ip) = true →
  flag (res_hasLinkLocalAddress (getIP_body fam allow acc ip)) (family ip) = true.
Proof.
  intros Hf Hl. unfold getIP_body.
  rewrite (orb_true_intro _ _) by
    (destruct Hf; [left | right]; by apply bool_decide_eq_true).
  rewrite Hl. simpl. unfold flag. by rewrite lookup_insert_eq.
Qed.

Lemma getIP_loop_flag_sets ips : ∀ acc ip,
  ip ∈ ips → passes_filter fam ip →
  isLinkLocalAddress (address ip) (family ip) = true →
  flag (res_hasLinkLocalAddress (getIP_loop fam allow ips acc)) (family ip) = true.
Proof.
  induction ips as [| ip' ips IH]; intros acc ip Hin Hf Hl.
  - by apply not_elem_of_nil in Hin.
  - apply elem_of_cons in Hin as [-> | Hin].
    + apply (getIP_loop_flag_keeps ips (getIP_body fam allow acc ip')).
      by apply getIP_body_flag_sets.
    + by apply (IH (getIP_body fam allow acc ip')).
Qed.

(** A flag is only ever raised for an entry that passed the filter and
    was found link-local. *)
Lemma getIP_loop_flag_inv ips : ∀ acc f,
  flag (res_hasLinkLocalAddress (getIP_loop fam allow ips acc)) f = true →
  flag (res_hasLinkLocalAddress acc) f = true ∨
  ∃ ip, ip ∈ ips ∧ passes_filter fam ip ∧ family ip = f ∧
        isLinkLocalAddress (address ip) (family ip) = true.
Proof.
  induction ips as [| ip ips IH]; intros acc f H; [by left |].
  apply (IH (getIP_body fam allow acc ip)) in H as [H | (ip' & Hin & Hp)].
  - unfold getIP_body in H.
    destruct (bool_decide (fam = family ip) || bool_decide (fam = "Any")) eqn:E; [| by left].
    destruct (isLinkLocalAddress (address ip) (family ip)) eqn:El; simpl in H; [| by left].
    unfold flag in H. destruct (decide (family ip = f)) as [Heq | Hne].
    + right. exists ip. split; [by left |]. split; [| done].
      apply orb_prop in E. destruct E as [E|E]; apply bool_decide_eq_true in E;
        [by left | by right].
    + rewrite lookup_insert_ne in H by done. by left.
  - right. exists ip'. split; [by right | done].
Qed.
End getIP_flags.

Lemma included_addresses_elem fam allow f ips a :
  a ∈ included_addresses fam allow f ips ↔
  ∃ ip, ip ∈ ips ∧ included fam allow ip ∧ family ip = f ∧ address ip = a.
Proof.
  unfold included_addresses. rewrite list_elem_of_fmap. split.
  - intros (ip & -> & Hin). apply list_elem_of_filter in Hin as [[Hi Hf] Hin]. eauto.
  - intros (ip & Hin & Hi & Hf & <-). exists ip. split; [done |].
    apply list_elem_of_filter. auto.
Qed.

(** The address set of a resolution, family by family. *)
Lemma getIP_lookup ifs name fam allow f :
  ip_address (getIP ifs name fam allow) ≫= (.!! f) =
  last (included_addresses fam allow f (default [] (ifs !! name))).
Proof.
  unfold getIP.
  set (r := match ifs !! name with
            | Some ips => getIP_loop fam allow ips Resolution_init
            | None => Resolution_init
            end).
  assert (∀ g, res_result r !! g =
               last (included_addresses fam allow g (default [] (ifs !! name)))) as Hr.
  { intros g. subst r. destruct (ifs !! name) as [ips |]; simpl; [| done].
    rewrite getIP_loop_result. simpl. rewrite lookup_empty. by destruct (last _). }
  simpl. case_bool_decide as Hs; simpl; [apply Hr |].
  assert (res_result r = ∅) as He by (apply map_size_empty_iff; lia).
  rewrite <- Hr, He. by rewrite lookup_empty.
Qed.

Lemma getIP_not_empty ifs name fam allow :
  ip_address (getIP ifs name fam allow) ≠ Some ∅.
Proof.
  unfold getIP. simpl. case_bool_decide as Hs; [| done].
  intros [= He]. rewrite He, map_size_empty in Hs. lia.
Qed.

(** [getIP] throws exactly for the names the answer of the runtime only
    inherits. *)
Lemma getIP_run_throws_iff
    (ifs : gmap string (list NetworkInterfaceInfo)) (name fam : string) (allow : bool) :
  getIP_run ifs name fam allow = None ↔ inherited ifs name.
Proof. unfold getIP_run. by destruct (decide (inherited ifs name)). Qed.

Lemma getIP_run_returns
    (ifs : gmap string (list NetworkInterfaceInfo)) (name fam : string) (allow : bool)
    (r : IPResult) :
  getIP_run ifs name fam allow = Some r →
  r = getIP ifs name fam allow ∧ ¬ inherited ifs name.
Proof. unfold getIP_run. destruct (decide (inherited ifs name)); [done |]. by intros [= <-]. Qed.

(** When [getIP] returns, its address set maps a family to at most one
    address: the slot of family [f] holds exactly the last included address
    of that family in enumeration order (and there is no slot, or no set at
    all, when there is none); the set is never an empty object; and for an
    interface name the runtime does not report the address is [null] and
    both flags are false. *)
Theorem getIP_keeps_last_address
    (ifs : gmap string (list NetworkInterfaceInfo)) (name fam : string) (allow : bool)
    (r : IPResult) :
  getIP_run ifs name fam allow = Some r →
  let ips := default [] (ifs !! name) in
  (∀ f, ip_address r ≫= (.!! f) = last (included_addresses fam allow f ips)) ∧
  (∀ f earlier a, included_addresses fam allow f ips = (earlier ++ [a])%list →
     ∃ A, ip_address r = Some A ∧ A !! f = Some a) ∧
  ip_address r ≠ Some ∅ ∧
  (ifs !! name = None →
     ip_address r = None ∧
     ip_hasLinkLocalAddress r = <["IPv4" := false]> (<["IPv6" := false]> ∅)).
Proof.
  intros [-> _]%getIP_run_returns ips. split; [| split; [| split]].
  - intros f. apply getIP_lookup.
  - intros f earlier a Hl.
    pose proof (getIP_lookup ifs name fam allow f) as H.
    fold ips in H. rewrite Hl, last_snoc in H.
    destruct (ip_address (getIP ifs name fam allow)) as [A |]; [| done]. by exists A.
  - apply getIP_not_empty.
  - intros Hn. unfold getIP. rewrite Hn. simpl.
    rewrite bool_decide_eq_false_2; [done |]. rewrite map_size_empty. lia.
Qed.

Lemma getIP_keeps_last_address_witness :
  (∃ A, ip_address (getIP two_v4 "Ethernet" "Any" false) = Some A ∧
        A !! "IPv4" = Some "10.0.0.2") ∧
  ip_address (getIP two_v4 "Wi-Fi" "Any" false) = None.
Proof.
  split.
  - apply (proj1 (proj2 (getIP_keeps_last_address two_v4 "Ethernet" "Any" false _
                           ltac:(reflexivity)))
             "IPv4" ["10.0.0.1"] "10.0.0.2").
    vm_compute. reflexivity.
  - apply (proj2 (proj2 (proj2 (getIP_keeps_last_address two_v4 "Wi-Fi" "Any" false _
                                  ltac:(reflexivity))))).
    vm_compute. reflexivity.
Defined.

(** C10 on the code: an unknown interface name does not always give
    [address = null].  The runtime reports no interface called
    [constructor], but [networkInterfaces["constructor"]] is the function
    every plain object inherits: it passes the guard of [getIP], the loop
    over it throws a TypeError, and [getIP] returns nothing.  An unknown
    name that is not inherited gets [null] and both flags false. *)
Lemma getIP_throws_for_inherited_name :
  two_v4 !! "constructor" = None ∧
  getIP_run two_v4 "constructor" "Any" false = None ∧
  two_v4 !! "Wi-Fi" = None ∧
  getIP_run two_v4 "Wi-Fi" "Any" false =
    Some {| ip_address := None;
            ip_hasLinkLocalAddress := <["IPv4" := false]> (<["IPv6" := false]> ∅) |}.
Proof. repeat apply conj; vm_compute; reflexivity. Qed.

(** C2, as stated, fails: the flags do not report every family in which a
    link-local address is present.  A monitor for IPv4 on an interface whose
    only address is fe80::1 skips the IPv6 entry at the family filter, and
    the IPv6 flag stays false. *)
Lemma getIP_flag_of_unmonitored_family :
  let ip := {| address := "fe80::1"; family := "IPv6" |} in
  let r := getIP v6_link_local_only "Ethernet" "IPv4" false in
  v6_link_local_only !! "Ethernet" = Some [ip] ∧
  link_local_entry ip ∧
  flag (ip_hasLinkLocalAddress r) (family ip) = false.
Proof.
  split; [reflexivity |]. split; [| vm_compute; reflexivity].
  right. split; [reflexivity |].
  exists (Z.shiftl 0xFE80 112 + 1). split.
  - split; [vm_compute; split; congruence | reflexivity].
  - exists ":1". reflexivity.
Qed.

(** C2, amended: resolving with [allowLinkLocalAddress = false] puts no
    address into the set that [isLinkLocalAddress] accepts, so the IPv4 slot
    never holds the text of an address of 169.254.0.0/16 and the IPv6 slot
    never holds a text of an address of fe80::/10; and the flag of a family
    is true whenever an entry of that family that passes the monitor's
    family filter holds a link-local address, although the address is left
    out of the set. *)
Theorem getIP_excludes_link_local
    (ifs : gmap string (list NetworkInterfaceInfo)) (name fam : string) :
  let r := getIP ifs name fam false in
  (∀ A f s, ip_address r = Some A → A !! f = Some s → isLinkLocalAddress s f = false) ∧
  (∀ A s a, ip_address r = Some A → A !! "IPv4" = Some s →
     in_169_254_0_0_16 a → s ≠ dotted_decimal a) ∧
  (∀ A s a, ip_address r = Some A → A !! "IPv6" = Some s →
     in_fe80_10 a → ¬ ipv6_text a s) ∧
  (∀ ips ip, ifs !! name = Some ips → ip ∈ ips → passes_filter fam ip →
     link_local_entry ip → flag (ip_hasLinkLocalAddress r) (family ip) = true).
Proof.
  intros r.
  assert (∀ A f s, ip_address r = Some A → A !! f = Some s →
                   isLinkLocalAddress s f = false) as Hex.
  { intros A f s HA Hs.
    pose proof (getIP_lookup ifs name fam false f) as H. fold r in H.
    rewrite HA in H. simpl in H. rewrite Hs in H. symmetry in H.
    apply last_Some_elem_of, included_addresses_elem in H
      as (ip & _ & [_ [Hl | ?]] & <- & <-); done. }
  split; [exact Hex |]. split; [| split].
  - intros A s a HA Hs Ha ->. specialize (Hex _ _ _ HA Hs).
    by rewrite isLinkLocalAddress_dotted_decimal in Hex.
  - intros A s a HA Hs Ha Ht. specialize (Hex _ _ _ HA Hs).
    by rewrite (isLinkLocalAddress_ipv6_text a) in Hex.
  - intros ips ip Hi Hin Hf Hl. subst r. unfold getIP. rewrite Hi. simpl.
    apply getIP_loop_flag_sets; [done | done |].
    by apply link_local_entry_detected.
Qed.

Lemma getIP_excludes_link_local_witness :
  "192.168.0.10" ≠ dotted_decimal 0xA9FE0105 ∧
  flag (ip_hasLinkLocalAddress (getIP v4_both "Ethernet" "IPv4" false)) "IPv4" = true.
Proof.
  destruct (getIP_excludes_link_local v4_both "Ethernet" "IPv4") as (_ & H4 & _ & Hflag).
  split.
  - apply (H4 {["IPv4" := "192.168.0.10"]}); [vm_compute; reflexivity | reflexivity |].
    split; [lia | reflexivity].
  - apply (Hflag _ {| address := "169.254.1.5"; family := "IPv4" |}
             ltac:(reflexivity)).
    + apply elem_of_cons. by left.
    + by left.
    + left. split; [reflexivity |]. exists 0xA9FE0105.
      split; [split; [lia | reflexivity] | reflexivity].
Defined.

(** ** The monitor *)

Opaque getIP.

Ltac exec :=
  unfold emitted, onCheckTimer, onNotifyIpInterfaceChange, detectIPChange, start, stop,
    cancelNotification, ipCheckTimerInterval, ipCheckTimerMaxTries,
    call_clientCallback, call_NotifyIpInterfaceChange, call_CancelMibChangeNotify2,
    this_getIP, setTimeout, clearTimeout, emit, on_host, read, write,
    mbind, M_bind, mret, M_ret; simpl.

Lemma drop_app_new {A} (l new : list A) : drop (length l) (l ++ new) = new.
Proof. by rewrite drop_app_length. Qed.

(** *** The family loop *)

Lemma family_loop_fold (current address : gmap string string)
    (l : list (string * string)) (e : EventType) :
  foldl (λ eventType '(fam, _),
           if bool_decide (current !! fam ≠ address !! fam) then IPChanged else eventType)
        e l =
  if decide (Exists (λ kv, current !! kv.1 ≠ address !! kv.1) l) then IPChanged else e.
Proof.
  revert e. induction l as [| [k v] l IH]; intros e; cbn [foldl].
  - destruct (decide _) as [H | H]; [by apply Exists_nil in H | done].
  - rewrite IH. case_bool_decide as Hk.
    + destruct (decide (Exists _ (_ :: _))) as [H | H]; [by destruct (decide _) |].
      exfalso. apply H. by left.
    + destruct (decide (Exists _ l)) as [He | He];
        destruct (decide (Exists _ (_ :: _))) as [H | H]; try done.
      * exfalso. apply H. by right.
      * apply Exists_cons in H as [H | H]; [simpl in H; congruence | by destruct He].
Qed.

(** The loop answers [IPChanged] exactly when a family of the new set has
    another address, or none, in the previous set. *)
Lemma family_loop_changed (current address : gmap string string) :
  (∃ fam, is_Some (address !! fam) ∧ current !! fam ≠ address !! fam) →
  family_loop current address = IPChanged.
Proof.
  intros (fam & [a Ha] & Hne). unfold family_loop. rewrite family_loop_fold.
  rewrite decide_True; [done |]. apply Exists_exists.
  exists (fam, a). split; [| done]. by apply elem_of_map_to_list.
Qed.

Lemma family_loop_unchanged (current address : gmap string string) :
  (∀ fam, is_Some (address !! fam) → current !! fam = address !! fam) →
  family_loop current address = Initial.
Proof.
  intros H. unfold family_loop. rewrite family_loop_fold.
  rewrite decide_False; [done |]. intros ([k v] & Hin & Hne)%Exists_exists.
  apply elem_of_map_to_list in Hin. apply Hne, H. simpl. by rewrite Hin.
Qed.

(** *** Classification *)

(** C1, as stated, fails twice.  Without a client function there is nothing
    to emit: a monitor built without one resolves an address from none and
    stays silent.  And a family that is only in the previous set is never
    compared: when IPv4 goes and IPv6 stays, no event is emitted. *)
Lemma detectIPChange_not_by_the_table :
  (currentAddress (this without_callback) = None ∧
   ip_address (getIP (networkInterfaces (host without_callback)) "Ethernet" "IPv4" false)
     = Some {[ "IPv4" := "10.0.0.1" ]} ∧
   emitted detectIPChange without_callback = []) ∧
  (let w := run [DoStart; HostInterfaces (on_ethernet [v6_routable])] dual_stack in
   clientCallback (this w) = Some 7%nat ∧
   currentAddress (this w) = Some {[ "IPv4" := "10.0.0.1"; "IPv6" := "2001:db8::1" ]} ∧
   ip_address (getIP (networkInterfaces (host w)) "Ethernet" "Any" false)
     = Some {[ "IPv6" := "2001:db8::1" ]} ∧
   emitted detectIPChange w = []).
Proof. vm_compute. repeat split; reflexivity. Qed.

(** C1, amended: without a client function [detectIPChange] emits nothing;
    with a client function registered, one run of [detectIPChange] emits:
    nothing from none to none; [IPAssigned] with the
    new set from none to a set; [IPRemoved] with [null] from a set to none;
    [IPChanged] with the new set when a family of the new set had another
    address, or none, in the previous set; nothing when the two sets are
    identical. *)
Theorem detectIPChange_classification (w : World) :
  let P := currentAddress (this w) in
  let N := ip_address (getIP (networkInterfaces (host w)) (networkInterface (this w))
                         (addressFamily (this w)) false) in
  let out := emitted detectIPChange w in
  (clientCallback (this w) = None → out = []) ∧
  (clientCallback (this w) ≠ None →
   (P = None → N = None → out = []) ∧
   (P = None → N ≠ None → out = [(N, IPAssigned)]) ∧
   (P ≠ None → N = None → out = [(None, IPRemoved)]) ∧
   (∀ p n, P = Some p → N = Some n →
      (∃ fam, is_Some (n !! fam) ∧ p !! fam ≠ n !! fam) → out = [(N, IPChanged)]) ∧
   (∀ p, P = Some p → N = Some p → out = [])).
Proof.
  intros P N out. subst P N out. split.
  { intros Hcb. exec.
    destruct (ip_address _) as [n |].
    - destruct (checkTimer (this w)); simpl;
        (destruct (bool_decide _); simpl; rewrite ?Hcb; simpl;
         rewrite ?drop_app_new, ?drop_all; done).
    - destruct (currentAddress (this w)); simpl.
      + rewrite Hcb. simpl. by rewrite drop_all.
      + destruct (flag _ _ && _); simpl; rewrite ?drop_app_new, ?drop_all; done. }
  intros Hsome. destruct (clientCallback (this w)) as [f |] eqn:Hcb; [clear Hsome | done].
  repeat split.
  - intros HP HN. exec. rewrite HN, HP. simpl.
    destruct (flag _ _ && _); simpl; rewrite ?drop_app_new; try done.
    by rewrite drop_all.
  - intros HP HN. exec.
    destruct (ip_address _) as [n |]; [| done]. rewrite HP.
    destruct (checkTimer (this w)); simpl; rewrite Hcb; simpl.
    + rewrite <- app_assoc. by rewrite drop_app_new.
    + by rewrite drop_app_new.
  - intros HP HN. exec. rewrite HN.
    destruct (currentAddress (this w)); [| done]. simpl. rewrite Hcb. simpl.
    by rewrite drop_app_new.
  - intros p n HP HN Hd. exec. rewrite HN, HP.
    rewrite (family_loop_changed _ _ Hd).
    destruct (checkTimer (this w)); simpl; rewrite Hcb; simpl.
    + rewrite <- app_assoc. by rewrite drop_app_new.
    + by rewrite drop_app_new.
  - intros p HP HN. exec. rewrite HN, HP.
    rewrite family_loop_unchanged by done.
    destruct (checkTimer (this w)); simpl.
    + by rewrite drop_app_new.
    + by rewrite drop_all.
Qed.

Lemma detectIPChange_classification_witness :
  let w := run [DoStart; HostInterfaces (on_ethernet [v6_routable; {| address := "10.0.0.2"; family := "IPv4" |}])]
             dual_stack in
  emitted detectIPChange w =
    [(Some {[ "IPv4" := "10.0.0.2"; "IPv6" := "2001:db8::1" ]}, IPChanged)].
Proof.
  intros w.
  destruct (proj2 (detectIPChange_classification w) ltac:(discriminate)) as (_ & _ & _ & H & _).
  rewrite (H {[ "IPv4" := "10.0.0.1"; "IPv6" := "2001:db8::1" ]}
             {[ "IPv4" := "10.0.0.2"; "IPv6" := "2001:db8::1" ]}).
  - vm_compute. reflexivity.
  - vm_compute. reflexivity.
  - vm_compute. reflexivity.
  - exists "IPv4". split; [by eexists | vm_compute; congruence].
Defined.

(** C4 on the code: a monitor for any family knows an IPv4 and an IPv6
    address; the IPv4 address goes and the IPv6 address stays.  The loop
    only visits the families of the new set, finds IPv6 unchanged, and no
    event at all is emitted, although the stored set is replaced. *)
Lemma partial_family_loss_is_silent :
  let w := run [DoStart; HostInterfaces (on_ethernet [v6_routable])] dual_stack in
  let w' := (detectIPChange w).2 in
  clientCallback (this w) = Some 7%nat ∧
  currentAddress (this w) = Some {[ "IPv4" := "10.0.0.1"; "IPv6" := "2001:db8::1" ]} ∧
  currentAddress (this w') = Some {[ "IPv6" := "2001:db8::1" ]} ∧
  emitted detectIPChange w = [] ∧
  client_calls (effects (host w')) =
    [(Some {[ "IPv4" := "10.0.0.1"; "IPv6" := "2001:db8::1" ]}, Initial)].
Proof. vm_compute. repeat split; reflexivity. Qed.

(** *** Retry cancellation *)

(** C7: when [detectIPChange] resolves an address set while a retry timeout
    is pending, it clears that timeout before anything else (so before any
    client call), and when it returns [checkTimer] is [null], the attempt
    counter is zero and the timeout is no longer pending in the event
    loop. *)
Theorem detectIPChange_cancels_retry (w : World) (n : gmap string string) (t : Timeout) :
  ip_address (getIP (networkInterfaces (host w)) (networkInterface (this w))
                (addressFamily (this w)) false) = Some n →
  checkTimer (this w) = Some t →
  let w' := (detectIPChange w).2 in
  checkTimer (this w') = None ∧
  checkTimerCounter (this w') = 0 ∧
  (t ∉ pending (host w')) ∧
  head (drop (length (effects (host w))) (effects (host w'))) = Some (CallClearTimeout t).
Proof.
  intros Hn Ht. exec. rewrite Hn, Ht. simpl.
  assert (t ∉ filter (λ t', t' ≠ t) (pending (host w))) as Hgone.
  { intros [Hne _]%list_elem_of_filter. by apply Hne. }
  destruct (bool_decide _); simpl; [destruct (clientCallback _); simpl |].
  - repeat split; [done |]. rewrite <- app_assoc. by rewrite drop_app_new.
  - repeat split; [done |]. by rewrite drop_app_new.
  - repeat split; [done |]. by rewrite drop_app_new.
Qed.

Lemma detectIPChange_cancels_retry_witness :
  let w := run [Notification; HostInterfaces (on_ethernet [v4_routable])] link_local_only in
  checkTimer (this w) = Some 0%nat ∧
  pending (host w) = [0%nat] ∧
  checkTimer (this (detectIPChange w).2) = None ∧
  checkTimerCounter (this (detectIPChange w).2) = 0 ∧
  0%nat ∉ pending (host (detectIPChange w).2).
Proof.
  intros w.
  destruct (detectIPChange_cancels_retry w {[ "IPv4" := "10.0.0.1" ]} 0%nat)
    as (H1 & H2 & H3 & _).
  - vm_compute. reflexivity.
  - reflexivity.
  - split; [reflexivity |]. split; [reflexivity |]. auto.
Defined.

(** *** Silence without a client function *)

Ltac quiet :=
  unfold client_calls; rewrite ?omap_app; simpl; rewrite ?app_nil_r; done.

Lemma detectIPChange_silent (w : World) :
  clientCallback (this w) = None →
  clientCallback (this (detectIPChange w).2) = None ∧
  client_calls (effects (host (detectIPChange w).2)) = client_calls (effects (host w)).
Proof.
  intros Hcb. exec.
  destruct (ip_address _) as [n |].
  - destruct (checkTimer (this w)); simpl;
      (destruct (bool_decide _); simpl; rewrite ?Hcb; simpl; (split; [done | quiet])).
  - destruct (currentAddress (this w)); simpl.
    + rewrite Hcb. simpl. by split.
    + destruct (flag _ _ && _); simpl; split; try done. quiet.
Qed.

Lemma start_silent (w : World) :
  clientCallback (this w) = None →
  clientCallback (this (start w).2) = None ∧
  client_calls (effects (host (start w).2)) = client_calls (effects (host w)).
Proof.
  intros Hcb. exec. destruct (handle (this w)); simpl; [done |].
  rewrite Hcb. simpl. destruct (NotifyIpInterfaceChange _ _) as [status p]. simpl.
  split; [done | quiet].
Qed.

Lemma stop_silent (w : World) :
  clientCallback (this (stop w).2) = None ∧
  client_calls (effects (host (stop w).2)) = client_calls (effects (host w)).
Proof.
  exec. destruct (handle (this w)); simpl; [| done].
  destruct (bool_decide _); simpl; split; try done; quiet.
Qed.

Lemma fire_silent (t : Timeout) (w : World) :
  clientCallback (this w) = None →
  clientCallback (this (fire t w).2) = None ∧
  client_calls (effects (host (fire t w).2)) = client_calls (effects (host w)).
Proof.
  intros Hcb. unfold fire. destruct (bool_decide _); [| done].
  unfold onCheckTimer, on_host, write, read, mbind, M_bind, mret, M_ret. simpl.
  destruct (bool_decide _); simpl; [| done].
  match goal with |- context [detectIPChange ?w'] =>
    destruct (detectIPChange_silent w' Hcb) as [H1 H2] end.
  destruct (detectIPChange _) as [[] w'']. simpl in *. by rewrite H1, H2.
Qed.

Lemma step_silent (a : Action) (w : World) :
  clientCallback (this w) = None →
  clientCallback (this (step a w)) = None ∧
  client_calls (effects (host (step a w))) = client_calls (effects (host w)).
Proof.
  intros Hcb. destruct a; simpl.
  - by apply start_silent.
  - apply stop_silent.
  - done.
  - done.
  - by apply detectIPChange_silent.
  - by apply fire_silent.
  - done.
  - done.
Qed.

Lemma run_silent (actions : list Action) : ∀ w : World,
  clientCallback (this w) = None →
  clientCallback (this (run actions w)) = None ∧
  client_calls (effects (host (run actions w))) = client_calls (effects (host w)).
Proof.
  induction actions as [| a actions IH]; intros w Hcb; [done |].
  destruct (step_silent a w Hcb) as [H1 H2].
  destruct (IH (step a w) H1) as [H3 H4].
  change (run (a :: actions) w) with (run actions (step a w)).
  split; [done | congruence].
Qed.

(** C8: [stop()] clears the client function first and calls no client, and
    whatever happens to the monitor afterwards (a notification delivered
    late, a retry timeout still pending that runs, a change of the host,
    further calls of [start()], [stop()] and the setters) no client call is
    ever made again: the client calls of the log are those made before
    [stop()].  This holds whatever [stop()] returns, so in particular after
    it returned true. *)
Theorem no_client_call_after_stop (w : World) (actions : list Action) :
  let w1 := (stop w).2 in
  clientCallback (this w1) = None ∧
  client_calls (effects (host w1)) = client_calls (effects (host w)) ∧
  client_calls (effects (host (run actions w1))) = client_calls (effects (host w)).
Proof.
  intros w1. destruct (stop_silent w) as [H1 H2]. fold w1 in H1, H2.
  destruct (run_silent actions w1 H1) as [_ H3].
  repeat split; [done | done | congruence].
Qed.

(** *** The subscription life cycle *)




(** C3 on the code: the subscription call fails and [start()] returns
    false, but the buffer allocated for the handle was stored in
    [monitorData.handle] before the call and stays there.  The next
    [start()] takes the monitor for started: it returns true, asks for no
    subscription and changes nothing. *)
Lemma start_after_failed_start :
  let w := failing_subscription in
  let w1 := (start w).2 in
  handle (this w) = None ∧
  (start w).1 = false ∧
  handle (this w1) = Some 0 ∧
  start w1 = (true, w1) ∧
  subscriptions (effects (host (start w1).2)) = [Some 2].
Proof. vm_compute. repeat split; reflexivity. Qed.

(** The same in general: after any [start()] from the inert state that
    returns false, the handle is set. *)
Lemma failed_start_leaves_handle (w : World) :
  handle (this w) = None → (start w).1 = false → handle (this (start w).2) ≠ None.
Proof.
  intros Hh. exec. rewrite Hh. simpl.
  destruct (clientCallback (this w)); simpl;
    destruct (NotifyIpInterfaceChange _ _); simpl; done.
Qed.





(** *** The initial callback *)

(** C9, as stated, fails: [start()] in the inert state calls back only if a
    client function is registered, and [stop()] clears it for good.  A
    monitor started, stopped and started again is inert before the second
    [start()], which subscribes and returns true without an Initial
    callback. *)
Lemma restart_without_initial_callback :
  let w := run [DoStart; DoStop] dual_stack in
  handle (this w) = None ∧
  clientCallback (this w) = None ∧
  start_run w = Some (start w) ∧
  (start w).1 = true ∧
  emitted start w = [].
Proof. repeat apply conj; vm_compute; reflexivity. Qed.

(** [start()] in the inert state throws, before it has done anything,
    exactly when the interface name is one the runtime's answer only
    inherits. *)
Lemma detectIPChange_run_throws_iff (w : World) :
  detectIPChange_run w = None ↔
  inherited (networkInterfaces (host w)) (networkInterface (this w)).
Proof.
  unfold detectIPChange_run, getIP_run. by destruct (decide (inherited _ _)).
Qed.

Lemma start_run_throws_iff (w : World) :
  handle (this w) = None →
  start_run w = None ↔ inherited (networkInterfaces (host w)) (networkInterface (this w)).
Proof.
  intros Hh. unfold start_run, getIP_run. rewrite Hh.
  by destruct (decide (inherited _ _)).
Qed.

(** C9, amended: for any address family and any interface name for which
    the resolution completes (a name the runtime reports, or one that plain
    objects do not inherit), [start()] in the inert state returns; it has
    resolved the address with link-local addresses allowed and stored it as
    [currentAddress]; if a client function is registered it has called it
    exactly once, with that address and [Initial], before it asked for the
    native subscription and so before it returned; if none is registered it
    has made no client call. *)
Theorem start_initial_callback (w : World) :
  handle (this w) = None →
  ¬ inherited (networkInterfaces (host w)) (networkInterface (this w)) →
  let a := ip_address (getIP (networkInterfaces (host w)) (networkInterface (this w))
                         (addressFamily (this w)) true) in
  let w' := (start w).2 in
  start_run w = Some (start w) ∧
  currentAddress (this w') = a ∧
  emitted start w =
    match clientCallback (this w) with Some _ => [(a, Initial)] | None => [] end ∧
  drop (length (effects (host w))) (effects (host w')) =
    (match clientCallback (this w) with
     | Some f => [CallClient f a Initial]
     | None => []
     end ++ [CallNotifyIpInterfaceChange (AddressFamilyApiValue !! addressFamily (this w))])%list.
Proof.
  intros Hh Hres. split.
  { unfold start_run, getIP_run. rewrite Hh. by rewrite decide_False by done. }
  exec. rewrite Hh. simpl.
  destruct (clientCallback (this w)); simpl;
    destruct (NotifyIpInterfaceChange _ _); simpl;
    rewrite <- ?app_assoc, drop_app_new; done.
Qed.

Lemma start_initial_callback_witness :
  start_run link_local_only = Some (start link_local_only) ∧
  currentAddress (this (start link_local_only).2) = Some {[ "IPv4" := "169.254.1.5" ]} ∧
  emitted start link_local_only = [(Some {[ "IPv4" := "169.254.1.5" ]}, Initial)].
Proof.
  destruct (start_initial_callback link_local_only ltac:(reflexivity))
    as (H0 & H1 & H2 & _).
  - intros [Hn _]. vm_compute in Hn. discriminate.
  - split; [exact H0 |]. split; [rewrite H1 | rewrite H2]; vm_compute; reflexivity.
Defined.

(** *** The retry timer *)

Lemma filter_out_only (t : Timeout) : filter (λ t', t' ≠ t) [t] = [].
Proof. rewrite filter_cons_False; [done |]. intros H. by apply H. Qed.

Section retry.
Context (w0 : World) (Hll : only_link_local w0).

(** A detection that finds the monitor idle arms the timeout. *)
Lemma detectIPChange_arms (w : World) :
  currentAddress (this w) = None →
  checkTimer (this w) = None →
  pending (host w) = [] →
  checkTimerMaxTries (this w) = checkTimerMaxTries (this w0) →
  networkInterface (this w) = networkInterface (this w0) →
  addressFamily (this w) = addressFamily (this w0) →
  networkInterfaces (host w) = networkInterfaces (host w0) →
  client_calls (effects (host w)) = client_calls (effects (host w0)) →
  retrying w0 (detectIPChange w).2 (nextTimeout (host w)) (checkTimerCounter (this w)).
Proof.
  intros Hcur Ht Hp Hmax Hname Hfam Hifs Hcalls.
  destruct Hll as [Hnone Hflag].
  unfold retrying. exec. rewrite Hifs, Hname, Hfam, Hnone, Hcur. simpl.
  rewrite Hfam, Hflag, Ht. simpl.
  rewrite Hp. repeat split; try done. rewrite <- Hcalls. quiet.
Qed.

(** A timeout that runs below the maximum counts one attempt and arms
    the next timeout. *)
Lemma fire_retries (w : World) (t : Timeout) (c : Z) :
  retrying w0 w t c → c < checkTimerMaxTries (this w0) →
  retrying w0 (fire t w).2 (nextTimeout (host w)) (c + 1).
Proof.
  intros (Hcur & Ht & Hp & Hc & Hmax & Hname & Hfam & Hifs & Hcalls) Hlt.
  unfold fire. rewrite Hp. rewrite bool_decide_eq_true_2 by (by left).
  unfold onCheckTimer, on_host, write, read, mbind, M_bind, mret, M_ret. simpl.
  rewrite Hc, Hmax, bool_decide_eq_true_2 by done.
  rewrite Hp, filter_out_only.
  match goal with |- retrying _ (detectIPChange ?w').2 _ _ =>
    pose proof (detectIPChange_arms w') as H end.
  simpl in H. by apply H.
Qed.

(** A timeout that runs at the maximum resets the counter and arms
    nothing. *)
Lemma fire_gives_up (w : World) (t : Timeout) (c : Z) :
  retrying w0 w t c → (checkTimerMaxTries (this w0) ≤ c)%Z →
  gave_up w0 (fire t w).2.
Proof.
  intros (Hcur & Ht & Hp & Hc & Hmax & Hname & Hfam & Hifs & Hcalls) Hge.
  unfold fire. rewrite Hp. rewrite bool_decide_eq_true_2 by (by left).
  unfold onCheckTimer, on_host, write, read, mbind, M_bind, mret, M_ret. simpl.
  rewrite Hc, Hmax, bool_decide_eq_false_2 by lia.
  rewrite Hp, filter_out_only.
  by repeat split.
Qed.

(** Left alone, the event loop runs the retry timeouts until the maximum
    is reached, and one more. *)
Lemma drain_retrying (k : nat) : ∀ (w : World) (t : Timeout) (c : Z) (n : nat),
  retrying w0 w t c →
  Z.to_nat (checkTimerMaxTries (this w0) - c) = k →
  (k + 1 ≤ n)%nat →
  (drain n w).1 = (k + 1)%nat ∧ gave_up w0 (drain n w).2.
Proof.
  induction k as [| k IH]; intros w t c n Hr Hk Hn.
  - destruct n as [| n]; [lia |]. simpl.
    pose proof Hr as (_ & _ & Hp & _). rewrite Hp.
    assert (gave_up w0 (fire t w).2) as Hg by (apply (fire_gives_up w t c); [done | lia]).
    destruct n as [| n]; simpl; [done |].
    destruct Hg as (? & ? & Hp' & ? & ?). rewrite Hp'. by repeat split.
  - destruct n as [| n]; [lia |]. simpl.
    pose proof Hr as (_ & _ & Hp & _). rewrite Hp.
    assert (retrying w0 (fire t w).2 (nextTimeout (host w)) (c + 1)) as Hr'
      by (apply fire_retries; [done | lia]).
    destruct (IH (fire t w).2 _ (c + 1) n Hr' ltac:(lia) ltac:(lia)) as [H1 H2].
    destruct (drain n (fire t w).2) as [k' w']. simpl in *. split; [lia | done].
Qed.
End retry.

(** C6, as stated, fails: the timeout runs once more than the maximum.  A
    started monitor with the default maximum of 20 on an interface that
    keeps only a link-local address has forgotten the address by the first
    notification; the next notification arms the timeout, which then runs
    21 times: 20 times it detects again and is armed again, the 21st time it
    gives up. *)
Lemma retry_timer_runs_once_more :
  let w := run [DoStart; Notification] link_local_only in
  let w1 := (onNotifyIpInterfaceChange w).2 in
  only_link_local w ∧
  checkTimerMaxTries (this w) = 20 ∧
  pending (host w) = [] ∧
  pending (host w1) = [0%nat] ∧
  (drain 20 w1).1 = 20%nat ∧
  pending (host (drain 20 w1).2) = [20%nat] ∧
  (drain 100 w1).1 = 21%nat.
Proof. vm_compute. repeat split; reflexivity. Qed.

(** C6, amended: on an interface that keeps only a link-local address in
    the monitored family, once a notification has armed the retry timeout
    of an idle monitor, the event loop left alone runs the timeout exactly
    [max 0 (maxTries - counter) + 1] times, however long it is left alone:
    at most [maxTries + 1] times, and exactly that from a counter of zero.
    Each run below the maximum detects again and arms the next timeout; the
    last run resets the counter to zero and arms nothing.  Afterwards no
    timeout is pending, [checkTimer] is [null], and no client call was made;
    nothing runs until the next notification. *)
Theorem retry_timer_bounded (w : World) (n : nat) :
  only_link_local w →
  currentAddress (this w) = None →
  checkTimer (this w) = None →
  pending (host w) = [] →
  let maxTries := checkTimerMaxTries (this w) in
  let counter := checkTimerCounter (this w) in
  let runs := (Z.to_nat (maxTries - counter) + 1)%nat in
  (runs ≤ n)%nat →
  let w1 := (onNotifyIpInterfaceChange w).2 in
  (drain n w1).1 = runs ∧
  gave_up w (drain n w1).2 ∧
  ((0 ≤ counter)%Z → (0 ≤ maxTries)%Z → (Z.of_nat runs ≤ maxTries + 1)%Z) ∧
  (counter = 0 → (0 ≤ maxTries)%Z → Z.of_nat runs = maxTries + 1).
Proof.
  intros Hll Hcur Ht Hp maxTries counter runs Hn w1.
  assert (retrying w w1 (nextTimeout (host w)) counter) as Hr
    by (by apply detectIPChange_arms).
  destruct (drain_retrying w Hll (Z.to_nat (maxTries - counter)) w1 _ counter n Hr
              eq_refl Hn) as [H1 H2].
  split; [exact H1 |]. split; [exact H2 |]. subst runs. split; lia.
Qed.

Lemma retry_timer_bounded_witness :
  let w := run [DoStart; Notification] link_local_only in
  (drain 30 (onNotifyIpInterfaceChange w).2).1 = 21%nat ∧
  gave_up w (drain 30 (onNotifyIpInterfaceChange w).2).2.
Proof.
  intros w.
  destruct (retry_timer_bounded w 30) as (H1 & H2 & _).
  - vm_compute. split; reflexivity.
  - reflexivity.
  - reflexivity.
  - reflexivity.
  - vm_compute. lia.
  - split; [exact H1 | exact H2].
Defined.

(** ** Two runs of the whole monitor *)

(** A monitor for IPv4 is started on an interface without address; a
    link-local address appears, then a routable one, then nothing.  The
    client hears [Initial] with [null], nothing when the link-local address
    appears (the retry timeout is armed instead), [IPAssigned] with the
    routable address (and the timeout is cleared), and [IPRemoved] with
    [null]. *)
Example run_link_local_then_routable :
  let idle := {| this := constructor "Ethernet" "IPv4" (Some 7%nat);
                 host := boot (on_ethernet []) notify_ok cancel_ok |} in
  let w :=
    run [ DoStart;
          HostInterfaces (on_ethernet [v4_link_local]); Notification;
          HostInterfaces (on_ethernet [{| address := "192.168.0.10"; family := "IPv4" |}]);
          Notification;
          HostInterfaces (on_ethernet []); Notification ] idle in
  effects (host w) =
    [ CallClient 7%nat None Initial;
      CallNotifyIpInterfaceChange (Some 2);
      CallSetTimeout 0%nat 500;
      CallClearTimeout 0%nat;
      CallClient 7%nat (Some {[ "IPv4" := "192.168.0.10" ]}) IPAssigned;
      CallClient 7%nat None IPRemoved ] ∧
  pending (host w) = [].
Proof. vm_compute. split; reflexivity. Qed.

(** A monitor for any family: the IPv4 address changes and the IPv6 address
    stays; the client hears one [IPChanged] with both addresses. *)
Example run_one_family_changes :
  let w :=
    run [ DoStart;
          HostInterfaces (on_ethernet [{| address := "10.0.0.2"; family := "IPv4" |}; v6_routable]);
          Notification ] dual_stack in
  client_calls (effects (host w)) =
    [ (Some {[ "IPv4" := "10.0.0.1"; "IPv6" := "2001:db8::1" ]}, Initial);
      (Some {[ "IPv4" := "10.0.0.2"; "IPv6" := "2001:db8::1" ]}, IPChanged) ].
Proof. vm_compute. reflexivity. Qed.

(** The numbers behind the event types. *)
Example EventType_values :
  EventType_value <$> [Initial; IPChanged; IPAssigned; IPRemoved] = [0; 1; 2; 3].
Proof. reflexivity. Qed.

(** * More of the monitor *)

(** ** More on address resolution *)

Transparent getIP.

Lemma included_passes fam allow ip : included fam allow ip → passes_filter fam ip.
Proof. by intros [H _]. Qed.

(** A slot of the address set comes from an included entry of that family. *)
Lemma getIP_slot_from_entry ifs name fam allow A f s :
  ip_address (getIP ifs name fam allow) = Some A → A !! f = Some s →
  ∃ ip, ip ∈ default [] (ifs !! name) ∧ included fam allow ip ∧
        family ip = f ∧ address ip = s.
Proof.
  intros HA Hs. pose proof (getIP_lookup ifs name fam allow f) as H.
  rewrite HA in H. simpl in H. rewrite Hs in H. symmetry in H.
  by apply last_Some_elem_of, included_addresses_elem in H.
Qed.

Lemma getIP_none_iff ifs name fam allow :
  ip_address (getIP ifs name fam allow) = None ↔
  ∀ ip, ip ∈ default [] (ifs !! name) → ¬ included fam allow ip.
Proof.
  split.
  - intros Hnone ip Hin Hinc.
    pose proof (getIP_lookup ifs name fam allow (family ip)) as H.
    rewrite Hnone in H. simpl in H. symmetry in H. apply last_None in H.
    assert (address ip ∈ included_addresses fam allow (family ip) (default [] (ifs !! name)))
      as Hel by (apply included_addresses_elem; eauto).
    rewrite H in Hel. by apply not_elem_of_nil in Hel.
  - intros Hno. destruct (ip_address (getIP ifs name fam allow)) as [A |] eqn:HA; [| done].
    exfalso. apply (getIP_not_empty ifs name fam allow). rewrite HA. f_equal.
    apply map_eq. intros f. rewrite lookup_empty.
    destruct (A !! f) as [s |] eqn:Hs; [| done].
    destruct (getIP_slot_from_entry _ _ _ _ _ _ _ HA Hs) as (ip & Hin & Hinc & _).
    by destruct (Hno ip Hin).
Qed.

(** When [getIP] returns, it returns [null] exactly when no entry of the
    interface is included: none passes the family filter, or, with
    link-local addresses not allowed, every one that passes is link-local.
    An empty array, and a name that the runtime does not report and that
    plain objects do not inherit, are the special cases.  For an inherited
    name it does not return. *)
Theorem getIP_null_iff (ifs : gmap string (list NetworkInterfaceInfo))
    (name fam : string) (allow : bool) :
  (∀ r, getIP_run ifs name fam allow = Some r →
     ip_address r = None ↔
     ∀ ip, ip ∈ default [] (ifs !! name) → ¬ included fam allow ip) ∧
  (getIP_run ifs name fam allow = None ↔ inherited ifs name).
Proof.
  split; [| apply getIP_run_throws_iff].
  intros r [-> _]%getIP_run_returns. apply getIP_none_iff.
Qed.

Lemma getIP_null_iff_witness :
  ip_address (getIP two_v4 "Wi-Fi" "Any" false) = None ∧
  getIP_run two_v4 "toString" "Any" false = None.
Proof.
  destruct (getIP_null_iff two_v4 "Wi-Fi" "Any" false) as [H _].
  destruct (getIP_null_iff two_v4 "toString" "Any" false) as [_ H'].
  split.
  - apply (H _ ltac:(reflexivity)). intros ip Hin. by apply not_elem_of_nil in Hin.
  - apply H'. split; [reflexivity |]. by apply (bool_decide_unpack _).
Defined.

Lemma getIP_one_slot ifs name fam allow A :
  fam ≠ "Any" →
  ip_address (getIP ifs name fam allow) = Some A →
  ∃ s, A = {[ fam := s ]}.
Proof.
  intros Hany HA.
  assert (∀ f s, A !! f = Some s → f = fam) as Hkey.
  { intros f s Hs.
    destruct (getIP_slot_from_entry _ _ _ _ _ _ _ HA Hs) as (ip & _ & [[Hf | Hf] _] & <- & _);
      [done | by destruct Hany]. }
  destruct (A !! fam) as [s |] eqn:Hfam.
  - exists s. apply map_eq. intros f. destruct (decide (f = fam)) as [-> | Hne].
    + by rewrite lookup_singleton_eq.
    + rewrite lookup_singleton_ne by done.
      destruct (A !! f) as [s' |] eqn:Hs; [| done]. by destruct (Hne (Hkey _ _ Hs)).
  - exfalso. apply (getIP_not_empty ifs name fam allow). rewrite HA. f_equal.
    apply map_eq. intros f. rewrite lookup_empty.
    destruct (A !! f) as [s' |] eqn:Hs; [| done].
    rewrite (Hkey _ _ Hs) in Hs. congruence.
Qed.

(** For a monitor of one family (not ["Any"]) an address set, when there is
    one, has exactly one slot: that of the monitored family. *)
Theorem getIP_single_family (ifs : gmap string (list NetworkInterfaceInfo))
    (name fam : string) (allow : bool) (A : gmap string string) :
  fam ≠ "Any" →
  ip_address (getIP ifs name fam allow) = Some A →
  ∃ s, A = {[ fam := s ]}.
Proof. apply getIP_one_slot. Qed.

Lemma getIP_address_ok ifs name fam allow :
  address_ok fam (ip_address (getIP ifs name fam allow)).
Proof.
  unfold address_ok. destruct (ip_address _) as [A |] eqn:HA; [| done]. split.
  - intros ->. by apply (getIP_not_empty ifs name fam allow).
  - intros Hany. by apply (getIP_one_slot ifs name fam allow).
Qed.

Lemma getIP_single_family_witness :
  ∃ s, ({[ "IPv4" := "10.0.0.2" ]} : gmap string string) = {[ "IPv4" := s ]}.
Proof.
  apply (getIP_single_family two_v4 "Ethernet" "IPv4" false).
  - discriminate.
  - vm_compute. reflexivity.
Defined.

(** The flags do not depend on [allowLinkLocalAddress]. *)
Lemma getIP_body_flags_allow fam acc1 acc2 ip :
  res_hasLinkLocalAddress acc1 = res_hasLinkLocalAddress acc2 →
  res_hasLinkLocalAddress (getIP_body fam true acc1 ip) =
  res_hasLinkLocalAddress (getIP_body fam false acc2 ip).
Proof.
  intros H. unfold getIP_body.
  destruct (_ || _); [| done].
  destruct (negb _); simpl; by rewrite H.
Qed.

Lemma getIP_loop_flags_allow fam ips : ∀ acc1 acc2,
  res_hasLinkLocalAddress acc1 = res_hasLinkLocalAddress acc2 →
  res_hasLinkLocalAddress (getIP_loop fam true ips acc1) =
  res_hasLinkLocalAddress (getIP_loop fam false ips acc2).
Proof.
  induction ips as [| ip ips IH]; intros acc1 acc2 H; [done |].
  apply (IH (getIP_body fam true acc1 ip) (getIP_body fam false acc2 ip)).
  by apply getIP_body_flags_allow.
Qed.

(** Only the two flags the object starts with are ever there. *)
Lemma isLinkLocalAddress_family addr f :
  isLinkLocalAddress addr f = true → f = "IPv4" ∨ f = "IPv6".
Proof.
  unfold isLinkLocalAddress.
  case_bool_decide; [by left |]. case_bool_decide; [by right | done].
Qed.

Lemma getIP_loop_flags_dom fam allow ips : ∀ acc,
  dom (res_hasLinkLocalAddress acc) = {[ "IPv4"; "IPv6" ]} →
  dom (res_hasLinkLocalAddress (getIP_loop fam allow ips acc)) = ({[ "IPv4"; "IPv6" ]} : gset string).
Proof.
  induction ips as [| ip ips IH]; intros acc H; [done |].
  apply (IH (getIP_body fam allow acc ip)). unfold getIP_body.
  destruct (_ || _); [| done].
  destruct (isLinkLocalAddress (address ip) (family ip)) eqn:El; simpl; [| done].
  rewrite dom_insert_L, H.
  apply isLinkLocalAddress_family in El as [-> | ->]; set_solver.
Qed.

(** The flags [getIP] returns: the object has the two properties [IPv4] and
    [IPv6] and no other; the flag of a family is true exactly when an entry
    of that family passes the family filter and is link-local for
    [isLinkLocalAddress]; and the flags are the same whether link-local
    addresses are allowed in the set or not. *)
Theorem getIP_flags_exact (ifs : gmap string (list NetworkInterfaceInfo))
    (name fam : string) (allow : bool) :
  let r := getIP ifs name fam allow in
  dom (ip_hasLinkLocalAddress r) = ({[ "IPv4"; "IPv6" ]} : gset string) ∧
  (∀ f, flag (ip_hasLinkLocalAddress r) f = true ↔
        ∃ ip, ip ∈ default [] (ifs !! name) ∧ passes_filter fam ip ∧ family ip = f ∧
              isLinkLocalAddress (address ip) (family ip) = true) ∧
  ip_hasLinkLocalAddress (getIP ifs name fam true) =
  ip_hasLinkLocalAddress (getIP ifs name fam false).
Proof.
  intros r. subst r. unfold getIP. simpl.
  destruct (ifs !! name) as [ips |]; simpl.
  - split; [| split].
    + apply getIP_loop_flags_dom. unfold Resolution_init. simpl.
      rewrite !dom_insert_L. set_solver.
    + intros f. split.
      * intros H. apply getIP_loop_flag_inv in H as [H | H]; [| done].
        unfold flag, Resolution_init in H. simpl in H.
        destruct (decide (f = "IPv4")) as [-> | ?]; [by rewrite lookup_insert_eq in H |].
        rewrite lookup_insert_ne in H by done.
        destruct (decide (f = "IPv6")) as [-> | ?]; [by rewrite lookup_insert_eq in H |].
        by rewrite lookup_insert_ne in H.
      * intros (ip & Hin & Hp & <- & Hl). by apply getIP_loop_flag_sets.
    + by apply getIP_loop_flags_allow.
  - split; [| split; [| done]].
    + unfold Resolution_init. simpl. rewrite !dom_insert_L. set_solver.
    + intros f. split.
      * unfold flag, Resolution_init. simpl. intros H.
        destruct (decide (f = "IPv4")) as [-> | ?]; [by rewrite lookup_insert_eq in H |].
        rewrite lookup_insert_ne in H by done.
        destruct (decide (f = "IPv6")) as [-> | ?]; [by rewrite lookup_insert_eq in H |].
        by rewrite lookup_insert_ne in H.
      * intros (ip & Hin & _). by apply not_elem_of_nil in Hin.
Qed.

(** Two address sets that agree slot by slot are the same. *)
Lemma address_sets_eq (a b : option (gmap string string)) :
  a ≠ Some ∅ → b ≠ Some ∅ →
  (∀ f, a ≫= (.!! f) = b ≫= (.!! f)) → a = b.
Proof.
  intros Ha Hb H. destruct a as [A |], b as [B |]; simpl in H; try done.
  - f_equal. by apply map_eq.
  - destruct Ha. f_equal. by apply map_eq.
  - destruct Hb. f_equal. apply map_eq. intros f. by rewrite <- H.
Qed.

Lemma filter_iff_in {A} (P1 P2 : A → Prop)
    `{!∀ x, Decision (P1 x), !∀ x, Decision (P2 x)} (l : list A) :
  (∀ x, x ∈ l → P1 x ↔ P2 x) → filter P1 l = filter P2 l.
Proof.
  induction l as [| a l IH]; intros Hiff; [done |].
  rewrite !filter_cons, IH by (intros x Hx; apply Hiff; by right).
  destruct (Hiff a ltac:(by left)) as [H12 H21].
  destruct (decide (P1 a)), (decide (P2 a)); tauto || done.
Qed.

(** When a resolution raises no link-local flag, allowing link-local
    addresses makes no difference: [getIP(true)] and [getIP(false)] return
    the same address set. *)
Theorem getIP_allow_without_link_local (ifs : gmap string (list NetworkInterfaceInfo))
    (name fam : string) :
  (∀ f, flag (ip_hasLinkLocalAddress (getIP ifs name fam false)) f = false) →
  ip_address (getIP ifs name fam true) = ip_address (getIP ifs name fam false).
Proof.
  intros Hno. apply address_sets_eq; [apply getIP_not_empty | apply getIP_not_empty |].
  intros f. rewrite !getIP_lookup. unfold included_addresses. f_equal. f_equal.
  apply filter_iff_in. intros ip Hin.
  enough (isLinkLocalAddress (address ip) (family ip) = true → passes_filter fam ip → False)
    as Hll.
  { unfold included. destruct (isLinkLocalAddress (address ip) (family ip)); [| tauto].
    split; intros [[Hp _] Hf]; by destruct Hll. }
  intros Hl Hp.
  destruct (getIP_flags_exact ifs name fam false) as (_ & Hflag & _).
  specialize (Hno (family ip)). rewrite (proj2 (Hflag (family ip))) in Hno; [done |].
  by exists ip.
Qed.

Lemma getIP_allow_without_link_local_witness :
  ip_address (getIP (on_ethernet [v4_routable; v6_routable]) "Ethernet" "Any" true) =
  ip_address (getIP (on_ethernet [v4_routable; v6_routable]) "Ethernet" "Any" false).
Proof.
  apply getIP_allow_without_link_local. intros f.
  destruct (getIP_flags_exact (on_ethernet [v4_routable; v6_routable]) "Ethernet" "Any" false)
    as (_ & Hflag & _).
  destruct (flag _ f) eqn:E; [| done].
  apply Hflag in E as (ip & Hin & _ & _ & Hl). exfalso.
  apply elem_of_cons in Hin as [-> | Hin]; [done |].
  apply elem_of_cons in Hin as [-> | Hin]; [done |].
  by apply not_elem_of_nil in Hin.
Defined.

(** ** What [isLinkLocalAddress] accepts *)

Lemma clash_app (p s rest : string) :
  clash p s = true → startsWith (s +:+ rest) p = false.
Proof.
  unfold startsWith. revert s.
  induction p as [| a p IH]; intros [| b s]; simpl; try done.
  destruct (Ascii.eqb_spec a b) as [-> | Hne].
  - intros H. destruct (ascii_dec b b); [by apply IH | done].
  - intros _. by destruct (ascii_dec a b).
Qed.

Lemma append_assoc (s1 s2 s3 : string) : (s1 +:+ s2) +:+ s3 = s1 +:+ (s2 +:+ s3).
Proof.
  induction s1 as [| c s1 IH]; [done |].
  by rewrite !append_cons, IH.
Qed.

Lemma all_from_spec (n : nat) : ∀ (z : Z) (f : Z → bool) (x : Z),
  all_from n z f = true → z ≤ x < z + Z.of_nat n → f x = true.
Proof.
  induction n as [| n IH]; intros z f x H Hx; [lia |].
  simpl in H. apply andb_prop in H as [Hz Hrest].
  destruct (decide (x = z)) as [-> | Hne]; [done |].
  apply (IH (z + 1)); [done | lia].
Qed.

Lemma v4_heads_decide :
  all_from 256 0 (λ o0, all_from 256 0 (v4_head_decides o0)) = true.
Proof. vm_compute. reflexivity. Qed.

Lemma v6_heads_decide : all_from (Z.to_nat 65535) 1 v6_head_decides = true.
Proof. vm_compute. reflexivity. Qed.

Lemma octet_range a i : 0 ≤ octet a i < 256.
Proof.
  unfold octet. change 255 with (Z.ones 8). rewrite Z.land_ones by lia.
  apply Z.mod_pos_bound. lia.
Qed.

Lemma dotted_decimal_head a :
  dotted_decimal a =
  v4_head (octet a 0) (octet a 1) +:+
  (decimal (octet a 2) +:+ "." +:+ decimal (octet a 3)).
Proof. unfold dotted_decimal, v4_head. by rewrite !append_assoc. Qed.

Lemma shiftr_16_octets a :
  0 ≤ a < 2 ^ 32 → Z.shiftr a 16 = 256 * octet a 0 + octet a 1.
Proof.
  intros Ha. unfold octet. change (8 * (3 - 0)) with 24. change (8 * (3 - 1)) with 16.
  change 255 with (Z.ones 8). rewrite !Z.land_ones by lia.
  rewrite !Z.shiftr_div_pow2 by lia.
  change (2 ^ 24) with (2 ^ 16 * 2 ^ 8). rewrite <- Z.div_div by lia.
  assert (0 ≤ a / 2 ^ 16 < 2 ^ 16) by (split; [apply Z.div_pos | apply Z.div_lt_upper_bound]; lia).
  rewrite (Z.mod_small (a / 2 ^ 16 / 2 ^ 8)).
  - pose proof (Z.div_mod (a / 2 ^ 16) (2 ^ 8) ltac:(lia)). lia.
  - split; [apply Z.div_pos | apply Z.div_lt_upper_bound]; lia.
Qed.

(** For IPv4 the prefix test is exact: the text of a 32-bit address is taken
    for link-local exactly when the address is in 169.254.0.0/16. *)
Theorem isLinkLocalAddress_IPv4_exact (a : Z) :
  0 ≤ a < 2 ^ 32 →
  isLinkLocalAddress (dotted_decimal a) "IPv4" = true ↔ in_169_254_0_0_16 a.
Proof.
  intros Ha. split; [| apply isLinkLocalAddress_dotted_decimal].
  intros H. split; [done |]. rewrite shiftr_16_octets by done.
  pose proof (octet_range a 0) as H0. pose proof (octet_range a 1) as H1.
  unfold isLinkLocalAddress in H. rewrite bool_decide_eq_true_2 in H by done.
  apply andb_prop in H as [_ H]. rewrite dotted_decimal_head in H.
  assert (0 ≤ octet a 0 < 0 + Z.of_nat 256 ∧ 0 ≤ octet a 1 < 0 + Z.of_nat 256) as [R0 R1]
    by (change (Z.of_nat 256) with 256; lia).
  pose proof (all_from_spec _ _ _ (octet a 0) v4_heads_decide R0) as Hall.
  cbv beta in Hall.
  pose proof (all_from_spec _ _ _ (octet a 1) Hall R1) as Hdec. clear Hall.
  unfold v4_head_decides in Hdec.
  destruct ((octet a 0 =? 169)%Z && (octet a 1 =? 254)%Z) eqn:E.
  - apply andb_prop in E as [E0 E1]. lia.
  - by rewrite (clash_app _ _ _ Hdec) in H.
Qed.

Lemma isLinkLocalAddress_IPv4_exact_witness :
  isLinkLocalAddress (dotted_decimal 0xA9FE0105) "IPv4" = true ↔ in_169_254_0_0_16 0xA9FE0105.
Proof. apply isLinkLocalAddress_IPv4_exact. lia. Defined.

Lemma in_fe80_10_first_group a :
  0 ≤ a < 2 ^ 128 →
  in_fe80_10 a ↔ (0xFE80 ≤ Z.shiftr a 112 ≤ 0xFEBF)%Z.
Proof.
  intros Ha. split.
  - intros H. apply first_group_fe80_10 in H. lia.
  - intros Hh. split; [done |]. change 118 with (112 + 6).
    rewrite <- Z.shiftr_shiftr by lia. rewrite (Z.shiftr_div_pow2 _ 6) by lia.
    change (2 ^ 6) with 64.
    pose proof (Z.div_mod (Z.shiftr a 112) 64 ltac:(lia)).
    pose proof (Z.mod_pos_bound (Z.shiftr a 112) 64 ltac:(lia)). lia.
Qed.

Lemma first_group_range a : 0 ≤ a < 2 ^ 128 → 0 ≤ Z.shiftr a 112 < 65536.
Proof.
  intros Ha. rewrite Z.shiftr_div_pow2 by lia.
  split; [apply Z.div_pos | apply Z.div_lt_upper_bound]; lia.
Qed.

(** For IPv6 the prefix test is wider than the block.  For a 128-bit address
    whose first group is not zero, and any text the runtime may print for
    it, the test accepts the text exactly when the address is in fe80::/10
    or when its first group is one of fe8, fe9, fea, feb: the addresses from
    fe8:: to feb:ffff:..., which are not link-local, are taken for
    link-local as well. *)
Theorem isLinkLocalAddress_IPv6_accepts (a : Z) (s : string) :
  0 ≤ a < 2 ^ 128 →
  (1 ≤ Z.shiftr a 112)%Z →
  ipv6_text a s →
  isLinkLocalAddress s "IPv6" = true ↔
  in_fe80_10 a ∨ (0xFE8 ≤ Z.shiftr a 112 ≤ 0xFEB)%Z.
Proof.
  intros Ha Hpos [rest ->]. rewrite (in_fe80_10_first_group a Ha).
  pose proof (first_group_range a Ha) as Hr.
  set (h := Z.shiftr a 112) in *.
  assert (1 ≤ h < 1 + Z.of_nat (Z.to_nat 65535)) as Hin by lia.
  pose proof (all_from_spec _ _ _ h v6_heads_decide Hin) as Hdec.
  change (hexadecimal h +:+ ":" +:+ rest) with (hexadecimal h +:+ (":" +:+ rest)).
  rewrite <- append_assoc. fold (v6_head h).
  assert (isLinkLocalAddress (v6_head h +:+ rest) "IPv6" =
          truthy (v6_head h +:+ rest) && fe8_to_feb (v6_head h +:+ rest)) as ->.
  { unfold isLinkLocalAddress, fe8_to_feb.
    rewrite bool_decide_eq_false_2 by done. by rewrite bool_decide_eq_true_2 by done. }
  unfold v6_head_decides in Hdec.
  destruct (v6_accepted h) eqn:Hacc.
  - split.
    + intros _. unfold v6_accepted in Hacc. lia.
    + intros _. apply andb_true_intro. split.
      * unfold v6_head. destruct (hexadecimal h); [done | apply truthy_cons].
      * by apply fe8_to_feb_app.
  - apply andb_prop in Hdec as [Hdec Hb]. apply andb_prop in Hdec as [Hdec Ha'].
    apply andb_prop in Hdec as [H8 H9].
    assert (fe8_to_feb (v6_head h +:+ rest) = false) as ->.
    { unfold fe8_to_feb.
      by rewrite (clash_app _ _ rest H8), (clash_app _ _ rest H9),
                 (clash_app _ _ rest Ha'), (clash_app _ _ rest Hb). }
    rewrite andb_false_r. split; [done |].
    intros Hin'. unfold v6_accepted in Hacc. lia.
Qed.

Lemma isLinkLocalAddress_IPv6_accepts_witness :
  isLinkLocalAddress "fe8::1" "IPv6" = true ∧
  ¬ in_fe80_10 (Z.shiftl 0xFE8 112 + 1).
Proof.
  pose proof (isLinkLocalAddress_IPv6_accepts (Z.shiftl 0xFE8 112 + 1) "fe8::1") as H.
  split.
  - apply H.
    + vm_compute. split; congruence.
    + vm_compute. congruence.
    + by exists ":1".
    + right. vm_compute. split; congruence.
  - intros [_ Hb]. vm_compute in Hb. congruence.
Defined.

(** ** More on the life cycle *)

Opaque getIP.

Lemma stop_true_iff (w : World) :
  (stop w).1 = true ↔ handle (this (stop w).2) = None.
Proof.
  exec. destruct (handle (this w)) as [p |] eqn:Hh; simpl.
  - destruct (bool_decide (CancelMibChangeNotify2 (host w) p = 0)); simpl; [done |].
    by rewrite Hh.
  - by rewrite Hh.
Qed.

(** [stop()] answers whether the handle is [null] afterwards.  When the
    handle is set and the cancellation fails, [stop()] has asked the native
    layer once, with the stored pointer, returns false and keeps the handle
    as it was; [stop()] can then be called again, and it returns true and
    clears the handle as soon as the native layer accepts the same
    pointer. *)
Theorem stop_failure_retryable (w : World) (p : Z)
    (notify : option Z → Z * Z) (cancel : Z → Z) :
  handle (this w) = Some p →
  CancelMibChangeNotify2 (host w) p ≠ 0 →
  let w1 := (stop w).2 in
  (stop w).1 = false ∧
  handle (this w1) = Some p ∧
  added stop w = [CallCancelMibChangeNotify2 p] ∧
  (cancel p = 0 →
     let w2 := step (HostNative notify cancel) w1 in
     (stop w2).1 = true ∧
     handle (this (stop w2).2) = None ∧
     added stop w2 = [CallCancelMibChangeNotify2 p]) ∧
  ∀ w', (stop w').1 = true ↔ handle (this (stop w').2) = None.
Proof.
  intros Hh Hfail. split; [| split; [| split; [| split]]].
  - exec. rewrite Hh. simpl. rewrite bool_decide_eq_false_2 by done. simpl.
    by rewrite Hh.
  - exec. rewrite Hh. simpl. by rewrite bool_decide_eq_false_2 by done.
  - unfold added. exec. rewrite Hh. simpl. rewrite bool_decide_eq_false_2 by done.
    simpl. by rewrite drop_app_new.
  - intros Hz.
    assert (handle (this (step (HostNative notify cancel) (stop w).2)) = Some p) as Hh2.
    { exec. rewrite Hh. simpl. by rewrite bool_decide_eq_false_2 by done. }
    assert (CancelMibChangeNotify2 (host (step (HostNative notify cancel) (stop w).2)) p = 0)
      as Hc2 by done.
    generalize dependent (step (HostNative notify cancel) (stop w).2). intros w2 Hh2 Hc2.
    unfold added. exec. rewrite Hh2. simpl. rewrite Hc2. simpl.
    by rewrite drop_app_new.
  - apply stop_true_iff.
Qed.

Lemma stop_failure_retryable_witness :
  let w := step (HostNative notify_ok (λ _, 5)) (start dual_stack).2 in
  (stop w).1 = false ∧
  handle (this (stop w).2) = Some 4096 ∧
  (stop (step (HostNative notify_ok cancel_ok) (stop w).2)).1 = true.
Proof.
  intros w.
  destruct (stop_failure_retryable w 4096 notify_ok cancel_ok ltac:(reflexivity))
    as (H1 & H2 & _ & Hretry & _).
  - simpl. discriminate.
  - split; [exact H1 |]. split; [exact H2 |]. by apply Hretry.
Defined.

(** [stop()] after [start()] asks the native layer to cancel exactly the
    pointer the subscription call left in the handle buffer, and when that
    succeeds the monitor is inert again. *)
Theorem start_stop_round_trip (w : World) :
  handle (this w) = None →
  let p := (NotifyIpInterfaceChange (host w)
              (AddressFamilyApiValue !! addressFamily (this w))).2 in
  let w1 := (start w).2 in
  handle (this w1) = Some p ∧
  drop (length (effects (host w1))) (effects (host (stop w1).2)) = [CallCancelMibChangeNotify2 p] ∧
  (CancelMibChangeNotify2 (host w) p = 0 →
     (stop w1).1 = true ∧ handle (this (stop w1).2) = None).
Proof.
  intros Hh. exec. rewrite Hh. simpl.
  destruct (clientCallback (this w)); simpl;
    destruct (NotifyIpInterfaceChange _ _) as [status p]; simpl;
    (split; [done |]); destruct (bool_decide (CancelMibChangeNotify2 _ _ = 0)) eqn:Hc; simpl;
    rewrite drop_app_new; (split; [done |]); intros Hz; try done;
    by rewrite bool_decide_eq_true_2 in Hc.
Qed.

Lemma start_stop_round_trip_witness :
  handle (this (start dual_stack).2) = Some 4096 ∧
  (stop (start dual_stack).2).1 = true ∧
  handle (this (stop (start dual_stack).2).2) = None.
Proof.
  destruct (start_stop_round_trip dual_stack ltac:(reflexivity)) as (H1 & _ & H3).
  split; [exact H1 |]. apply H3. reflexivity.
Defined.

Lemma cancelNotification_inert (w : World) :
  handle (this w) = None → cancelNotification w = (true, w).
Proof.
  intros Hh. unfold cancelNotification, read, mbind, M_bind, mret, M_ret.
  rewrite Hh. simpl. by rewrite Hh.
Qed.

(** The finalizer is silent on a monitor that was stopped: after a
    [stop()] that returned true it gives no warning, makes no native call
    and changes nothing.  On a monitor whose handle is still set it warns,
    naming the interface and the family, and asks the native layer to
    cancel the stored pointer. *)
Theorem finalizer_safety_net (w : World) :
  ((stop w).1 = true → finalizer (stop w).2 = (None, (stop w).2)) ∧
  (∀ p, handle (this w) = Some p →
     (finalizer w).1 =
       Some (not_stopped_warning (networkInterface (this w)) (addressFamily (this w))) ∧
     drop (length (effects (host w))) (effects (host (finalizer w).2))
       = [CallCancelMibChangeNotify2 p] ∧
     (CancelMibChangeNotify2 (host w) p = 0 → handle (this (finalizer w).2) = None)).
Proof.
  split.
  - intros Hret.
    assert (handle (this (stop w).2) = None) as Hh by (by apply stop_true_iff).
    unfold finalizer, read, mbind, M_bind, mret, M_ret. by rewrite Hh.
  - intros p Hp. unfold finalizer. exec. rewrite Hp. simpl. rewrite Hp. simpl.
    destruct (bool_decide (CancelMibChangeNotify2 (host w) p = 0)) eqn:Hc; simpl;
      rewrite drop_app_new; repeat split; try done.
    intros Hz. by rewrite bool_decide_eq_true_2 in Hc.
Qed.

Lemma finalizer_safety_net_witness :
  finalizer (stop (start dual_stack).2).2 = (None, (stop (start dual_stack).2).2) ∧
  (finalizer (start dual_stack).2).1 = Some (not_stopped_warning "Ethernet" "Any").
Proof.
  split.
  - apply (proj1 (finalizer_safety_net (start dual_stack).2)). reflexivity.
  - apply (proj2 (finalizer_safety_net (start dual_stack).2) 4096). reflexivity.
Defined.

(** ** What every run of the monitor keeps *)

Opaque getIP.

Lemma family_loop_values (current address : gmap string string) :
  family_loop current address = Initial ∨ family_loop current address = IPChanged.
Proof.
  unfold family_loop. rewrite family_loop_fold. destruct (decide _); auto.
Qed.

(** What [detectIPChange] leaves alone, and what it stores. *)
Lemma detectIPChange_frame (w : World) :
  let w' := (detectIPChange w).2 in
  handle (this w') = handle (this w) ∧
  clientCallback (this w') = clientCallback (this w) ∧
  networkInterface (this w') = networkInterface (this w) ∧
  addressFamily (this w') = addressFamily (this w) ∧
  checkTimerInterval (this w') = checkTimerInterval (this w) ∧
  checkTimerMaxTries (this w') = checkTimerMaxTries (this w) ∧
  networkInterfaces (host w') = networkInterfaces (host w) ∧
  currentAddress (this w') =
    ip_address (getIP (networkInterfaces (host w)) (networkInterface (this w))
                  (addressFamily (this w)) false).
Proof.
  exec. destruct (ip_address _) as [n |].
  - destruct (checkTimer (this w)); simpl;
      (destruct (bool_decide _); simpl;
       [destruct (clientCallback (this w)) eqn:Hcb |]; simpl; done).
  - destruct (currentAddress (this w)); simpl.
    + destruct (clientCallback (this w)) eqn:Hcb; simpl; done.
    + destruct (flag _ _ && _); simpl; done.
Qed.

(** [detectIPChange] only adds to the log: timer calls and at most one
    client call, which carries the resolved address. *)
Ltac log_ok :=
  repeat first [apply Forall_nil | apply Forall_cons_2];
  first [exact I | by split | auto].

Lemma detectIPChange_added (w : World) :
  effects (host (detectIPChange w).2) = (effects (host w) ++ added detectIPChange w)%list ∧
  Forall not_native (added detectIPChange w) ∧
  Forall (call_ok (addressFamily (this w))) (client_calls (added detectIPChange w)).
Proof.
  pose proof (getIP_address_ok (networkInterfaces (host w)) (networkInterface (this w))
                (addressFamily (this w)) false) as Hok.
  unfold added. exec. destruct (ip_address _) as [n |] eqn:HN.
  - assert (∀ ev, ev = IPAssigned ∨ ev = IPChanged →
                  call_ok (addressFamily (this w)) (Some n, ev)) as Hcall
      by (intros ev [-> | ->]; by split).
    remember (match currentAddress (this w) with
              | Some current => family_loop current n
              | None => IPAssigned
              end) as ev eqn:Eev.
    assert (ev = Initial ∨ ev = IPAssigned ∨ ev = IPChanged) as Hev.
    { subst ev. destruct (currentAddress (this w)) as [c |]; [| auto].
      destruct (family_loop_values c n) as [-> | ->]; auto. }
    clear Eev. destruct Hev as [-> | [-> | ->]];
      destruct (checkTimer (this w)); simpl;
      try destruct (clientCallback (this w)); simpl;
      rewrite <- ?app_assoc, ?drop_app_new, ?drop_all, ?app_nil_r; simpl;
      (split; [done |]); split; log_ok.
  - destruct (currentAddress (this w)); simpl.
    + destruct (clientCallback (this w)); simpl;
        rewrite ?drop_app_new, ?drop_all, ?app_nil_r; simpl;
        (split; [done |]); split; log_ok.
    + destruct (flag _ _ && _); simpl;
        rewrite ?drop_app_new, ?drop_all, ?app_nil_r; simpl;
        (split; [done |]); split; log_ok.
Qed.

(** On a notification or when a timeout runs, the monitor never calls the
    native layer and never touches its handle, its client function, its
    configuration or the monitored interface and family; it only adds timer
    calls and client calls to the log. *)
Theorem detection_never_native (w : World) (a : Action) :
  a = Notification ∨ (∃ t, a = Fire t) →
  let w' := step a w in
  handle (this w') = handle (this w) ∧
  clientCallback (this w') = clientCallback (this w) ∧
  networkInterface (this w') = networkInterface (this w) ∧
  addressFamily (this w') = addressFamily (this w) ∧
  checkTimerInterval (this w') = checkTimerInterval (this w) ∧
  checkTimerMaxTries (this w') = checkTimerMaxTries (this w) ∧
  ∃ new, effects (host w') = (effects (host w) ++ new)%list ∧ Forall not_native new.
Proof.
  intros [-> | [t ->]]; simpl.
  - destruct (detectIPChange_frame w) as (H1 & H2 & H3 & H4 & H5 & H6 & _).
    destruct (detectIPChange_added w) as (He & Hn & _).
    repeat split; try done. by eexists.
  - unfold fire. destruct (bool_decide _).
    2:{ simpl. repeat split; try done. exists []. by rewrite app_nil_r. }
    unfold onCheckTimer, on_host, write, read, mbind, M_bind, mret, M_ret. simpl.
    destruct (bool_decide _); simpl.
    2:{ repeat split; try done. exists []. by rewrite app_nil_r. }
    match goal with |- context [detectIPChange ?w1] =>
      destruct (detectIPChange_frame w1) as (H1 & H2 & H3 & H4 & H5 & H6 & _);
      destruct (detectIPChange_added w1) as (He & Hn & _) end.
    destruct (detectIPChange _) as [[] w2]. simpl in *.
    repeat split; try done. by eexists.
Qed.

Lemma detection_never_native_witness :
  let w := (start link_local_only).2 in
  handle (this (step Notification w)) = Some 4096 ∧
  clientCallback (this (step Notification w)) = Some 7%nat.
Proof.
  intros w.
  destruct (detection_never_native w Notification ltac:(by left)) as (H1 & H2 & _).
  split; [by rewrite H1 | by rewrite H2].
Defined.

Lemma client_calls_app (l1 l2 : list Effect) :
  client_calls (l1 ++ l2) = (client_calls l1 ++ client_calls l2)%list.
Proof. unfold client_calls. apply omap_app. Qed.

(** Every step keeps the family and only adds to the log, and the client
    calls it adds are well formed. *)
Lemma step_log (a : Action) (w : World) :
  addressFamily (this (step a w)) = addressFamily (this w) ∧
  ∃ new, effects (host (step a w)) = (effects (host w) ++ new)%list ∧
         Forall (call_ok (addressFamily (this w))) (client_calls new).
Proof.
  destruct a; simpl.
  - pose proof (getIP_address_ok (networkInterfaces (host w)) (networkInterface (this w))
                  (addressFamily (this w)) true) as Hok.
    exec. destruct (handle (this w)); simpl.
    + split; [done |]. exists []. by rewrite app_nil_r.
    + destruct (clientCallback (this w)); simpl;
        destruct (NotifyIpInterfaceChange _ _); simpl; (split; [done |]);
        rewrite <- ?app_assoc; eexists; (split; [reflexivity |]); simpl; log_ok.
  - exec. destruct (handle (this w)); simpl.
    + destruct (bool_decide _); simpl; (split; [done |]);
        eexists; (split; [reflexivity |]); simpl; log_ok.
    + split; [done |]. exists []. by rewrite app_nil_r.
  - split; [done |]. exists []. by rewrite app_nil_r.
  - split; [done |]. exists []. by rewrite app_nil_r.
  - destruct (detectIPChange_frame w) as (_ & _ & _ & Hf & _).
    destruct (detectIPChange_added w) as (He & _ & Hc). split; [done |]. by eexists.
  - unfold fire. destruct (bool_decide _).
    2:{ simpl. split; [done |]. exists []. by rewrite app_nil_r. }
    unfold onCheckTimer, on_host, write, read, mbind, M_bind, mret, M_ret. simpl.
    destruct (bool_decide _); simpl.
    2:{ split; [done |]. exists []. by rewrite app_nil_r. }
    match goal with |- context [detectIPChange ?w1] =>
      destruct (detectIPChange_frame w1) as (_ & _ & _ & Hf & _);
      destruct (detectIPChange_added w1) as (He & _ & Hc) end.
    destruct (detectIPChange _) as [[] w2]. simpl in *. split; [done |]. by eexists.
  - split; [done |]. exists []. by rewrite app_nil_r.
  - split; [done |]. exists []. by rewrite app_nil_r.
Qed.

Lemma run_log (actions : list Action) : ∀ (w : World),
  Forall (call_ok (addressFamily (this w))) (client_calls (effects (host w))) →
  Forall (call_ok (addressFamily (this w)))
         (client_calls (effects (host (run actions w)))).
Proof.
  induction actions as [| a actions IH]; intros w Hw; [done |].
  change (run (a :: actions) w) with (run actions (step a w)).
  destruct (step_log a w) as (Hfam & new & He & Hnew).
  rewrite <- Hfam. apply IH. rewrite Hfam, He, client_calls_app.
  by apply Forall_app.
Qed.

(** Whatever happens to a new monitor, every call of the client function is
    well formed.  The address is [null] or a set that is not empty, and for
    a monitor of one family (not ["Any"]) a set with exactly the slot of
    that family, so that [address[addressFamily]] is defined.  [IPRemoved]
    always comes with [null]; [IPAssigned] and [IPChanged] never do. *)
Theorem client_calls_well_formed (name fam : string) (callback : option ClientFn)
    (ifs : gmap string (list NetworkInterfaceInfo))
    (notify : option Z → Z * Z) (cancel : Z → Z) (actions : list Action) :
  Forall (call_ok fam)
    (client_calls (effects (host (run actions
       {| this := constructor name fam callback; host := boot ifs notify cancel |})))).
Proof.
  apply (run_log actions
           {| this := constructor name fam callback; host := boot ifs notify cancel |}).
  constructor.
Qed.

(** *** The retry timeout in every run *)

Lemma detectIPChange_consistent (w : World) :
  timer_consistent w → timer_consistent (detectIPChange w).2.
Proof.
  intros [Hp Hc]. unfold timer_consistent. exec.
  destruct (checkTimer (this w)) as [t |] eqn:Ht;
    destruct (ip_address _) as [n |]; simpl; rewrite ?Ht; simpl.
  - rewrite Hp, filter_out_only.
    destruct (bool_decide (_ ≠ Initial)); simpl;
      [destruct (clientCallback (this w)) |]; simpl; done.
  - destruct (currentAddress (this w)); simpl; rewrite ?Ht.
    + destruct (clientCallback (this w)); simpl; rewrite ?Ht; done.
    + rewrite andb_false_r. simpl. by rewrite Ht.
  - destruct (bool_decide (_ ≠ Initial)); simpl;
      [destruct (clientCallback (this w)) |]; simpl; rewrite ?Ht; done.
  - destruct (currentAddress (this w)); simpl; rewrite ?Ht.
    + destruct (clientCallback (this w)); simpl; rewrite ?Ht; done.
    + destruct (flag _ _); simpl; rewrite ?Ht; [| done]. rewrite Hp. done.
Qed.

Lemma step_consistent (a : Action) (w : World) :
  timer_consistent w → timer_consistent (step a w).
Proof.
  intros Hw. pose proof Hw as [Hp Hc]. destruct a; simpl; try done.
  - unfold timer_consistent. exec. destruct (handle (this w)); simpl; [done |].
    destruct (clientCallback (this w)); simpl;
      destruct (NotifyIpInterfaceChange _ _); simpl; done.
  - unfold timer_consistent. exec. destruct (handle (this w)); simpl; [| done].
    destruct (bool_decide _); simpl; done.
  - by apply detectIPChange_consistent.
  - unfold fire. case_bool_decide as Hin; [| done].
    destruct (checkTimer (this w)) as [t' |] eqn:Ht; rewrite Hp in Hin;
      [| by apply not_elem_of_nil in Hin].
    apply list_elem_of_singleton in Hin as ->.
    unfold onCheckTimer, on_host, write, read, mbind, M_bind, mret, M_ret. simpl.
    rewrite Hp, filter_out_only.
    destruct (bool_decide _); simpl.
    + apply detectIPChange_consistent. split; simpl; [done | lia].
    + split; simpl; [done | lia].
Qed.

(** In every state a new monitor can reach, at most one retry timeout is
    pending in the event loop, and it is the one [checkTimer] holds (none
    when [checkTimer] is [null]); and the attempt counter is not
    negative. *)
Theorem timer_always_consistent (name fam : string) (callback : option ClientFn)
    (ifs : gmap string (list NetworkInterfaceInfo))
    (notify : option Z → Z * Z) (cancel : Z → Z) (actions : list Action) :
  timer_consistent (run actions
    {| this := constructor name fam callback; host := boot ifs notify cancel |}).
Proof.
  assert (∀ w, timer_consistent w → timer_consistent (run actions w)) as Hrun.
  { induction actions as [| a actions IH]; intros w Hw; [done |].
    apply (IH (step a w)). by apply step_consistent. }
  apply Hrun. split; simpl; [done | lia].
Qed.

(** A timeout that runs below the maximum always leaves the attempt counter
    one higher, also when its detection finds an address: the reset in
    [detectIPChange] is behind [checkTimer !== null], and [onCheckTimer] has
    cleared [checkTimer] before. *)
Theorem fire_below_maximum_counts (w : World) (t : Timeout) :
  t ∈ pending (host w) →
  checkTimerCounter (this w) < checkTimerMaxTries (this w) →
  checkTimerCounter (this (fire t w).2) = checkTimerCounter (this w) + 1.
Proof.
  intros Hin Hlt. unfold fire. rewrite bool_decide_eq_true_2 by done.
  unfold onCheckTimer, on_host, write, read, mbind, M_bind, mret, M_ret. simpl.
  rewrite bool_decide_eq_true_2 by done.
  exec. destruct (ip_address _) as [n |]; simpl.
  - destruct (bool_decide _); simpl; [destruct (clientCallback (this w)) |]; simpl; done.
  - destruct (currentAddress (this w)); simpl.
    + destruct (clientCallback (this w)); simpl; done.
    + destruct (flag _ _); simpl; done.
Qed.

Lemma fire_below_maximum_counts_witness :
  let w := run [Notification; HostInterfaces (on_ethernet [v4_routable])] link_local_only in
  emitted (fire 0%nat) w = [(Some {[ "IPv4" := "10.0.0.1" ]}, IPAssigned)] ∧
  checkTimer (this (fire 0%nat w).2) = None ∧
  checkTimerCounter (this (fire 0%nat w).2) = 1.
Proof.
  intros w. split; [vm_compute; reflexivity |]. split; [reflexivity |].
  rewrite (fire_below_maximum_counts w 0%nat).
  - reflexivity.
  - apply elem_of_cons. by left.
  - reflexivity.
Defined.

(** ** How detections compose *)

(** A detection that resolves what is already stored emits nothing. *)
Lemma detectIPChange_same (w : World) :
  currentAddress (this w) =
    ip_address (getIP (networkInterfaces (host w)) (networkInterface (this w))
                  (addressFamily (this w)) false) →
  emitted detectIPChange w = [].
Proof.
  intros Hsame. exec. rewrite Hsame.
  destruct (ip_address _) as [n |]; simpl.
  - rewrite family_loop_unchanged by done.
    destruct (checkTimer (this w)); simpl; by rewrite ?drop_app_new, ?drop_all.
  - destruct (flag _ _ && _); simpl; by rewrite ?drop_app_new, ?drop_all.
Qed.

(** No event is reported twice: when [detectIPChange] runs again and the
    addresses of the host have not changed in between, the second run makes
    no client call, whatever the first one found. *)
Theorem detectIPChange_no_duplicate (w : World) :
  emitted detectIPChange (detectIPChange w).2 = [].
Proof.
  apply detectIPChange_same.
  destruct (detectIPChange_frame w) as (_ & _ & Hname & Hfam & _ & _ & Hifs & Hcur).
  by rewrite Hname, Hfam, Hifs, Hcur.
Qed.

(** The first detection after [start()], the host unchanged.  [start()]
    stores the address resolved with link-local addresses allowed, the
    detection resolves without them.  When the two resolutions agree the
    detection is silent.  When only link-local addresses are there, the
    client has heard [Initial] with the link-local address and now hears
    [IPRemoved] with [null], although nothing changed on the interface. *)
Theorem first_detection_after_start (w : World) :
  handle (this w) = None →
  let with_link_local :=
    ip_address (getIP (networkInterfaces (host w)) (networkInterface (this w))
                  (addressFamily (this w)) true) in
  let without :=
    ip_address (getIP (networkInterfaces (host w)) (networkInterface (this w))
                  (addressFamily (this w)) false) in
  let w1 := (start w).2 in
  (with_link_local = without → emitted detectIPChange w1 = []) ∧
  (with_link_local ≠ None → without = None →
     emitted detectIPChange w1 =
       match clientCallback (this w) with
       | Some _ => [(None, IPRemoved)]
       | None => []
       end).
Proof.
  intros Hh with_ll without w1.
  assert (currentAddress (this w1) = with_ll ∧
          clientCallback (this w1) = clientCallback (this w) ∧
          networkInterface (this w1) = networkInterface (this w) ∧
          addressFamily (this w1) = addressFamily (this w) ∧
          networkInterfaces (host w1) = networkInterfaces (host w))
    as (Hcur & Hcb & Hname & Hfam & Hifs).
  { subst w1 with_ll. exec. rewrite Hh. simpl.
    destruct (clientCallback (this w)) eqn:Hcb; simpl;
      destruct (NotifyIpInterfaceChange _ _); simpl; done. }
  split.
  - intros Hsame. apply detectIPChange_same.
    rewrite Hname, Hfam, Hifs, Hcur. exact Hsame.
  - intros Hsome Hnone. clearbody w1. unfold emitted. exec.
    rewrite Hname, Hfam, Hifs. fold without. rewrite Hnone, Hcur.
    destruct with_ll; [| done]. simpl. rewrite Hcb.
    destruct (clientCallback (this w)); simpl; by rewrite ?drop_app_new, ?drop_all.
Qed.

Lemma first_detection_after_start_witness :
  emitted start link_local_only = [(Some {[ "IPv4" := "169.254.1.5" ]}, Initial)] ∧
  emitted detectIPChange (start link_local_only).2 = [(None, IPRemoved)] ∧
  emitted detectIPChange (start dual_stack).2 = [].
Proof.
  split; [vm_compute; reflexivity |]. split.
  - apply (proj2 (first_detection_after_start link_local_only ltac:(reflexivity))).
    + vm_compute. discriminate.
    + vm_compute. reflexivity.
  - apply (proj1 (first_detection_after_start dual_stack ltac:(reflexivity))).
    vm_compute. reflexivity.
Defined.

(** ** The example client *)

Lemma example_callback_on_call_ok name fam (c : option (gmap string string) * EventType) :
  fam ≠ "Any" → call_ok fam c →
  example_callback name fam c.1 c.2 =
    (example_messages name fam (c.1 ≫= (.!! fam)) c.2, false) ∧
  (c.1 ≠ None → is_Some (c.1 ≫= (.!! fam))).
Proof.
  intros Hany [Haddr Hev]. destruct c as [[A |] ev]; simpl in *.
  - destruct Haddr as [_ Hone]. destruct (Hone Hany) as [s ->].
    split; [| rewrite lookup_singleton_eq; by eexists].
    destruct ev; simpl; by rewrite ?lookup_singleton_eq.
  - split; [| done]. destruct ev; simpl in *; done.
Qed.

(** The example of the README never reads a missing address.  On a monitor
    of one family (not ["Any"]), built with the example's callback, every
    call the monitor makes finds [address[addressFamily]] defined whenever
    [address] is not [null], so the callback never throws and never prints
    [undefined]: it prints the messages of the event with the address of
    the monitored family. *)
Theorem example_callback_sound (name fam : string) (f : ClientFn)
    (ifs : gmap string (list NetworkInterfaceInfo))
    (notify : option Z → Z * Z) (cancel : Z → Z) (actions : list Action) :
  fam ≠ "Any" →
  Forall (λ c, example_callback name fam c.1 c.2 =
                 (example_messages name fam (c.1 ≫= (.!! fam)) c.2, false) ∧
               (c.1 ≠ None → is_Some (c.1 ≫= (.!! fam))))
    (client_calls (effects (host (run actions
       {| this := constructor name fam (Some f); host := boot ifs notify cancel |})))).
Proof.
  intros Hany.
  pose proof (run_log actions
    {| this := constructor name fam (Some f); host := boot ifs notify cancel |}
    ltac:(constructor)) as Hlog.
  simpl in Hlog. eapply Forall_impl; [exact Hlog |].
  intros c Hc. by apply example_callback_on_call_ok.
Qed.

Lemma example_callback_sound_witness :
  Forall (λ c, example_callback "Ethernet" "IPv4" c.1 c.2 =
                 (example_messages "Ethernet" "IPv4" (c.1 ≫= (.!! "IPv4")) c.2, false) ∧
               (c.1 ≠ None → is_Some (c.1 ≫= (.!! "IPv4"))))
    (client_calls (effects (host (run [DoStart; Notification]
       {| this := constructor "Ethernet" "IPv4" (Some 7%nat);
          host := boot (on_ethernet [v4_link_local]) notify_ok cancel_ok |})))).
Proof. apply example_callback_sound. discriminate. Defined.

Example example_callback_messages :
  example_callback "Ethernet" "IPv4" (Some {[ "IPv4" := "192.168.0.10" ]}) IPAssigned =
    (["Network interface 'Ethernet' is now active."; "IPv4 address assigned: 192.168.0.10"], false) ∧
  example_callback "Ethernet" "Any" (Some {[ "IPv4" := "192.168.0.10" ]}) Initial =
    (["Current address: undefined"], false).
Proof. split; vm_compute; reflexivity. Qed.

(** ** The utility that lists the interfaces *)

Section show_interfaces_facts.
Context (toLowerCase : string → string).

Lemma strip_lookup family (o : gmap string Value) (p : string) :
  strip family o !! p = if decide (deleted family p) then None else o !! p.
Proof.
  unfold strip. destruct (decide (deleted family p)) as [Hd | Hd].
  - apply map_lookup_filter_None. right. intros v _ Hk. by apply Hk.
  - destruct (o !! p) as [v |] eqn:Hp.
    + by apply map_lookup_filter_Some.
    + apply map_lookup_filter_None. by left.
Qed.

Lemma filter_addresses_all (l : list (gmap string Value)) :
  filter_addresses toLowerCase None l = Some (strip None <$> l).
Proof. induction l as [| o l IH]; [done |]. simpl. by rewrite IH. Qed.

Lemma filter_addresses_strings f (l : list (gmap string Value)) :
  Forall family_is_string l →
  filter_addresses toLowerCase (Some f) l =
    Some (strip (Some f) <$> filter (family_reads toLowerCase f) l).
Proof.
  induction 1 as [| o l [s Hs] Hl IH]; [done |].
  simpl. rewrite Hs, IH. rewrite filter_cons.
  case_bool_decide as Hf.
  - rewrite decide_True; [done |]. by exists s.
  - rewrite decide_False; [done |]. intros (s' & Hs' & ?). congruence.
Qed.

Lemma filter_addresses_throws f (l : list (gmap string Value)) :
  filter_addresses toLowerCase (Some f) l = None ↔ Exists (λ o, ¬ family_is_string o) l.
Proof.
  induction l as [| o l IH]; simpl.
  - split; [done | by intros ?%Exists_nil].
  - rewrite Exists_cons, <- IH. unfold family_is_string.
    destruct (o !! "family") as [[s | | |] |] eqn:Hs;
      try (split; [intros _; left; by intros [? [=]] | done]).
    destruct (filter_addresses toLowerCase (Some f) l).
    + split; [done |]. intros [H | H]; [| done]. destruct H. by eexists.
    + split; [by right | done].
Qed.

(** Without an argument the script never throws: it prints every interface
    with every entry, in order, each entry reduced to its [address] and
    [family] properties. *)
Theorem show_interfaces_without_argument
    (interfaces : gmap string (list (gmap string Value))) :
  show_interfaces toLowerCase None interfaces =
    Some ((λ l : list (gmap string Value), strip None <$> l) <$> interfaces) ∧
  ∀ (o : gmap string Value) (p : string),
    strip None o !! p = if decide (p = "address" ∨ p = "family") then o !! p else None.
Proof.
  split.
  - unfold show_interfaces. simpl. rewrite bool_decide_eq_true_2.
    + f_equal. apply map_fmap_ext. intros name l _. by rewrite filter_addresses_all.
    + intros name l _. rewrite filter_addresses_all. by eexists.
  - intros o p. rewrite strip_lookup. unfold deleted.
    destruct (decide (p = "address")) as [-> | Ha].
    + rewrite decide_False by (by intros [? _]). by rewrite decide_True by (by left).
    + destruct (decide (p = "family")) as [-> | Hf].
      * rewrite decide_False by (intros [_ [? | ?]]; done).
        by rewrite decide_True by (by right).
      * rewrite decide_True by (split; [done | by left]).
        by rewrite decide_False by (intros [? | ?]; done).
Qed.

(** With an argument, and every family a string: the script prints every
    interface name, also those left with an empty array; an array keeps, in
    order, the entries whose family in lower case is the argument's family
    (the argument in lower case, with [4] and [v4] read as [ipv4], [6] and
    [v6] as [ipv6]); and each kept entry is reduced to its [address]
    property alone. *)
Theorem show_interfaces_with_argument (a : string)
    (interfaces : gmap string (list (gmap string Value))) :
  map_Forall (λ _ l, Forall family_is_string l) interfaces →
  ∃ f, argument_family toLowerCase (Some a) = Some f ∧
       show_interfaces toLowerCase (Some a) interfaces =
         Some ((λ l : list (gmap string Value),
                  strip (Some f) <$> filter (family_reads toLowerCase f) l) <$> interfaces) ∧
       ∀ (o : gmap string Value) (p : string),
         strip (Some f) o !! p = if decide (p = "address") then o !! p else None.
Proof.
  intros Hstr. unfold show_interfaces. simpl.
  set (f := if bool_decide (toLowerCase a = "4") || bool_decide (toLowerCase a = "v4")
            then "ipv4"
            else if bool_decide (toLowerCase a = "6") || bool_decide (toLowerCase a = "v6")
                 then "ipv6" else toLowerCase a).
  exists f. split; [done |]. split.
  - rewrite bool_decide_eq_true_2.
    + f_equal. apply map_fmap_ext. intros name l Hl.
      by rewrite filter_addresses_strings by (by apply (Hstr name)).
    + intros name l Hl. rewrite filter_addresses_strings by (by apply (Hstr name)).
      by eexists.
  - intros o p. rewrite strip_lookup. unfold deleted.
    destruct (decide (p = "address")) as [-> | Ha].
    + by rewrite decide_False by (by intros [? _]).
    + by rewrite decide_True by (split; [done | by right]).
Qed.

(** With an argument the script throws, and prints nothing, exactly when
    some entry of some interface has a [family] that is not a string (a
    number, or none at all); without an argument it does not look. *)
Theorem show_interfaces_throws (a : string)
    (interfaces : gmap string (list (gmap string Value))) :
  show_interfaces toLowerCase (Some a) interfaces = None ↔
  ∃ name l o, interfaces !! name = Some l ∧ o ∈ l ∧ ¬ family_is_string o.
Proof.
  unfold show_interfaces. simpl.
  set (f := if bool_decide (toLowerCase a = "4") || bool_decide (toLowerCase a = "v4")
            then "ipv4"
            else if bool_decide (toLowerCase a = "6") || bool_decide (toLowerCase a = "v6")
                 then "ipv6" else toLowerCase a).
  case_bool_decide as Hall; split.
  - done.
  - intros (name & l & o & Hl & Ho & Hns). exfalso.
    destruct (Hall name l Hl) as [r Hr].
    assert (filter_addresses toLowerCase (Some f) l = None) as Hnone.
    { apply filter_addresses_throws. apply Exists_exists. eauto. }
    congruence.
  - intros _. apply map_not_Forall in Hall; [| apply _].
    destruct Hall as (name & l & Hl & Hn).
    destruct (filter_addresses toLowerCase (Some f) l) eqn:E; [destruct Hn; by eexists |].
    apply filter_addresses_throws, Exists_exists in E as (o & Ho & Hns).
    by exists name, l, o.
  - done.
Qed.

End show_interfaces_facts.

Lemma sample_interfaces_strings :
  map_Forall (λ _ l, Forall family_is_string l) sample_interfaces.
Proof.
  apply map_Forall_insert_2; [| apply map_Forall_singleton];
    repeat constructor; eexists; vm_compute; reflexivity.
Qed.

Lemma show_interfaces_with_argument_witness :
  ∃ f, argument_family ascii_lower (Some "V4") = Some f ∧
       show_interfaces ascii_lower (Some "V4") sample_interfaces =
         Some ((λ l : list (gmap string Value),
                  strip (Some f) <$> filter (family_reads ascii_lower f) l)
               <$> sample_interfaces) ∧
       ∀ (o : gmap string Value) (p : string),
         strip (Some f) o !! p = if decide (p = "address") then o !! p else None.
Proof.
  apply show_interfaces_with_argument. apply sample_interfaces_strings.
Defined.

(** The sample of the README: all entries with address and family without
    an argument; the IPv4 addresses alone with the argument [V4]; and an
    entry that reports its family as a number makes the script throw as
    soon as an argument is given. *)
Example show_interfaces_sample :
  show_interfaces ascii_lower None sample_interfaces =
    Some {[ "Ethernet" :=
              [ {[ "address" := VString "fe80::200:ff:fe00:0"; "family" := VString "IPv6" ]};
                {[ "address" := VString "192.168.0.1"; "family" := VString "IPv4" ]} ];
            "Loopback Pseudo-Interface 1" :=
              [ {[ "address" := VString "::1"; "family" := VString "IPv6" ]};
                {[ "address" := VString "127.0.0.1"; "family" := VString "IPv4" ]} ] ]} ∧
  show_interfaces ascii_lower (Some "V4") sample_interfaces =
    Some {[ "Ethernet" := [ {[ "address" := VString "192.168.0.1" ]} ];
            "Loopback Pseudo-Interface 1" := [ {[ "address" := VString "127.0.0.1" ]} ] ]} ∧
  show_interfaces ascii_lower (Some "wifi") sample_interfaces =
    Some {[ "Ethernet" := []; "Loopback Pseudo-Interface 1" := [] ]} ∧
  show_interfaces ascii_lower (Some "4")
    {[ "Ethernet" := [ {[ "address" := VString "192.168.0.1"; "family" := VNumber 4 ]} ] ]} = None.
Proof. repeat apply conj; apply (bool_decide_unpack _); vm_compute; exact I. Qed.
